(** * tooth-app-3d: the mesh editing and measurement engine of [Viewer3D]

    A shallow embedding of the geometric core of
    [src/components/Toolbar.tsx] (the [Viewer3D] component): the brush
    deformation, the neighbour query, the occlusal classification, the
    cross-section plane, the two-click measurement and the STL load
    handler, together with the parts of three.js and of ECMAScript they
    call into.

    JavaScript numbers are IEEE 754 binary64 values; they are modelled by
    Rocq's primitive [float]s, so that every definition below evaluates on
    concrete inputs exactly as the program does.  A [Float32Array] element
    is a binary64 value that went through [fround]. *)

From Stdlib Require Import ZArith String Ascii DecimalString.
From Stdlib Require Import PrimFloat SpecFloat FloatOps FloatAxioms.
From Stdlib Require Uint63.
From stdpp Require Import base list.

#[local] Set Warnings "-inexact-float".

(** ** ECMAScript numbers *)

Module JS.

(** [Math.fround]: round a binary64 value to the nearest binary32 value
    (ties to even); this is what a store into a [Float32Array] does. *)
Definition fround (a : float) : float :=
  match Prim2SF a with
  | S754_finite s m e => SF2Prim (binary_round 24 128 s m e)
  | _ => a
  end.

(** [Object.is] on numbers (SameValue): [NaN] is itself, [+0] and [-0]
    differ.  React compares hook state and effect dependencies with it. *)
Definition sameValue (a b : float) : bool := PrimFloat.Leibniz.eqb a b.

(** The number of elements of an array, as a number. *)
Definition ofNat (n : nat) : float :=
  SF2Prim (binary_normalize prec emax (Z.of_nat n) 0 false).

(** The exact value of a finite number is [m * 2^e]; [scaled100 m e] is
    the integer [n] for which [n / 100 - m * 2^e] is as close to zero as
    possible, the larger one on a tie (step 10.a of
    [Number.prototype.toFixed]). *)
Definition scaled100 (m : positive) (e : Z) : Z :=
  match e with
  | Zneg p => (2 * (Zpos m * 100) + 2 ^ Zpos p) / 2 ^ (Zpos p + 1)
  | _ => Zpos m * 100 * 2 ^ e
  end%Z.

(** Whether [m * 2^e >= 10^21]. *)
Definition atLeast1e21 (m : positive) (e : Z) : bool :=
  match e with
  | Zneg p => (10 ^ 21 * 2 ^ Zpos p <=? Zpos m)
  | _ => (10 ^ 21 <=? Zpos m * 2 ^ e)
  end%Z.

Definition digits (n : Z) : string := NilZero.string_of_uint (N.to_uint (Z.to_N n)).

(** Steps 10.b-10.d of [toFixed] for two fraction digits: pad with
    zeros up to three characters and put the point before the last two. *)
Definition pointBeforeLastTwo (m : string) : string :=
  let k := String.length m in
  let m := match k with 0 => "000" | 1 => "00" ++ m | 2 => "0" ++ m | _ => m end%string in
  let k := String.length m in
  (String.substring 0 (k - 2) m ++ "." ++ String.substring (k - 2) 2 m)%string.

Section ToFixed.

(** [Number::toString], used by [toFixed] only for values of magnitude
    at least 10^21; it belongs to the language, not to the program. *)
Variable numberToString : float -> string.

(** [x.toFixed(2)]. *)
Definition toFixed2 (a : float) : string :=
  match Prim2SF a with
  | S754_nan => "NaN"
  | S754_infinity false => "Infinity"
  | S754_infinity true => "-Infinity"
  | S754_zero _ => "0.00"
  | S754_finite s m e =>
      let sign := if s then "-" else "" in
      if atLeast1e21 m e
      then (sign ++ numberToString (abs a))
      else (sign ++ pointBeforeLastTwo (digits (scaled100 m e)))
  end%string.

End ToFixed.

End JS.

(** ** three.js: [Vector3] *)

Module Vector3.

#[local] Open Scope float_scope.

Record t : Set := mk { x : float; y : float; z : float }.

(** [new THREE.Vector3()] *)
Definition zero : t := mk 0 0 0.

(** A vector read past the end of a typed array has [undefined]
    components; every use the program makes of them is arithmetic, where
    [undefined] converts to [NaN]. *)
Definition undefined : t := mk nan nan nan.

Definition add (a v : t) : t := mk (x a + x v) (y a + y v) (z a + z v).
Definition sub (a v : t) : t := mk (x a - x v) (y a - y v) (z a - z v).
Definition addVectors (a b : t) : t := mk (x a + x b) (y a + y b) (z a + z b).
Definition subVectors (a b : t) : t := mk (x a - x b) (y a - y b) (z a - z b).

Definition multiplyScalar (a : t) (s : float) : t :=
  mk (x a * s) (y a * s) (z a * s).

(** three.js divides by multiplying with the reciprocal. *)
Definition divideScalar (a : t) (s : float) : t := multiplyScalar a (1 / s).

(** [this.x += ( v.x - this.x ) * alpha] *)
Definition lerp (a v : t) (alpha : float) : t :=
  mk (x a + (x v - x a) * alpha)
     (y a + (y v - y a) * alpha)
     (z a + (z v - z a) * alpha).

Definition dot (a v : t) : float := x a * x v + y a * y v + z a * z v.

Definition distanceToSquared (a v : t) : float :=
  let dx := x a - x v in
  let dy := y a - y v in
  let dz := z a - z v in
  dx * dx + dy * dy + dz * dz.

Definition distanceTo (a v : t) : float := sqrt (distanceToSquared a v).

Definition length (a : t) : float := sqrt (x a * x a + y a * y a + z a * z a).

Definition crossVectors (a b : t) : t :=
  mk (y a * z b - z a * y b)
     (z a * x b - x a * z b)
     (x a * y b - y a * x b).

(** [divideScalar( this.length() || 1 )]: zero and [NaN] are falsy. *)
Definition normalize (a : t) : t :=
  let l := length a in
  divideScalar a (if (is_zero l || is_nan l)%bool then 1 else l).

Definition fround (a : t) : t := mk (JS.fround (x a)) (JS.fround (y a)) (JS.fround (z a)).

End Vector3.

Abbreviation Vector3 := Vector3.t.

(** ** three.js: [BufferAttribute] of item size 3 over a [Float32Array]

    The attribute is the list of its items; [count] is its length. *)

Abbreviation BufferAttribute := (list Vector3).

(** [vertex.fromBufferAttribute(attribute, index)] *)
Definition fromBufferAttribute (attribute : BufferAttribute) (index : nat) : Vector3 :=
  default Vector3.undefined (attribute !! index).

(** [attribute.setXYZ(index, x, y, z)]: the store rounds to binary32; a
    typed array ignores a store past its end. *)
Definition setXYZ (attribute : BufferAttribute) (index : nat) (v : Vector3) : BufferAttribute :=
  <[index := Vector3.fround v]> attribute.

(** ** The tool modes *)

Inductive Mode : Set :=
  | view | pick | measure | push | smooth | scale | margin | occlusal | section | note.

#[global] Instance Mode_eq_dec : EqDecision Mode.
Proof. solve_decision. Defined.

(** ** Spatial queries *)

(** [findNeighborVertices(vertexIndex, geometry)]: the indices other than
    [vertexIndex] whose position is closer than 0.1 to that of
    [vertexIndex], in increasing order. *)
Definition findNeighborVertices (vertexIndex : nat) (position : BufferAttribute) : list nat :=
  let vertex := fromBufferAttribute position vertexIndex in
  filter (fun i =>
            i <> vertexIndex /\
            (Vector3.distanceTo vertex (fromBufferAttribute position i) <? 0.1)%float = true)
         (seq 0 (length position)).

(** [calculateAveragePosition(indices, position)] *)
Definition calculateAveragePosition (indices : list nat) (position : BufferAttribute) : Vector3 :=
  let avg :=
    foldl (fun avg index => Vector3.add avg (fromBufferAttribute position index))
          Vector3.zero indices in
  if decide (0 < length indices)
  then Vector3.divideScalar avg (JS.ofNat (length indices))
  else avg.

(** ** The deformation brush *)

Section Deformation.

Variable mode : Mode.
Variable point : Vector3.
Variables radius strength : float.
(** [geometry.attributes.normal]; the loop only reads it. *)
Variable normal : BufferAttribute.

(** The vertex after the [switch (mode)] of the loop body. *)
Definition deformedVertex (position : BufferAttribute) (i : nat)
    (vertex : Vector3) (influence : float) : Vector3 :=
  match mode with
  | push =>
      Vector3.add vertex
        (Vector3.multiplyScalar (fromBufferAttribute normal i) (strength * influence)%float)
  | smooth =>
      let neighbors := findNeighborVertices i position in
      let avgPosition := calculateAveragePosition neighbors position in
      Vector3.lerp vertex avgPosition (strength * influence)%float
  | scale =>
      Vector3.add
        (Vector3.multiplyScalar (Vector3.sub vertex point) (1 + strength * influence)%float)
        point
  | _ => vertex
  end.

(** One iteration of the loop of [applyDeformation], on the live
    position attribute. *)
Definition deformStep (position : BufferAttribute) (i : nat) : BufferAttribute :=
  let vertex := fromBufferAttribute position i in
  let distance := Vector3.distanceTo vertex point in
  if (distance <? radius)%float
  then
    let influence := (1 - distance / radius)%float in
    setXYZ position i (deformedVertex position i vertex influence)
  else position.

(** The loop, visiting the indices in the given order. *)
Definition deformPass (order : list nat) (position : BufferAttribute) : BufferAttribute :=
  foldl deformStep position order.

(** [for (let i = 0; i < position.count; i++)] *)
Definition deformLoop (position : BufferAttribute) : BufferAttribute :=
  deformPass (seq 0 (length position)) position.

End Deformation.

(** The positions [applyDeformation] would write if every update were
    computed from the positions current at call time (the snapshot the
    specification describes). *)
Definition deformSnapshot (mode : Mode) (point : Vector3) (radius strength : float)
    (normal position : BufferAttribute) : BufferAttribute :=
  imap (fun i vertex =>
          let distance := Vector3.distanceTo vertex point in
          if (distance <? radius)%float
          then Vector3.fround
                 (deformedVertex mode point strength normal position i vertex
                    (1 - distance / radius)%float)
          else vertex)
       position.

(** ** three.js: colours, geometry, planes, materials *)

Module Color.
Record t : Set := mk { r : float; g : float; b : float }.
Definition fround (c : t) : t := mk (JS.fround (r c)) (JS.fround (g c)) (JS.fround (b c)).
End Color.

Abbreviation Color := Color.t.

(** [geometry.attributes]: STLLoader fills [position] and [normal];
    [color] exists once [setAttribute('color', ...)] has run. *)
Record BufferGeometry : Set := {
  attributes_position : BufferAttribute;
  attributes_normal : BufferAttribute;
  attributes_color : option (list Color)
}.

Record Plane : Set := { plane_normal : Vector3; constant : float }.

(** [new THREE.Plane().setFromNormalAndCoplanarPoint(normal, point)] *)
Definition setFromNormalAndCoplanarPoint (normal point : Vector3) : Plane :=
  {| plane_normal := normal; constant := (- Vector3.dot point normal)%float |}.

(** Planes are shared mutable objects (the plane of the cross-section is
    held by [crossSectionPlaneRef], by the material's [clippingPlanes] and
    by the plane helper at once); they live in a store and are referred to
    by their index in it. *)
Abbreviation PlaneRef := nat (only parsing).

Record MeshPhongMaterial : Set := {
  vertexColors : bool;
  clippingPlanes : list PlaneRef
}.

(** [new THREE.MeshPhongMaterial({ color, specular, shininess })] *)
Definition newMaterial : MeshPhongMaterial :=
  {| vertexColors := false; clippingPlanes := [] |}.

Record Mesh : Set := {
  mesh_uuid : nat;
  geometry : BufferGeometry;
  material : MeshPhongMaterial;
  mesh_position : Vector3
}.

(** [computeVertexNormals] of three.js on a geometry without index (the
    triangle soup STLLoader produces): every three consecutive positions
    form a face, whose normalized normal is stored for its three
    vertices.  A trailing incomplete face reads past the end. *)
Fixpoint faceNormals (fuel : nat) (position : BufferAttribute) : BufferAttribute :=
  match fuel, position with
  | S fuel', pA :: rest =>
      let pB := fromBufferAttribute rest 0 in
      let pC := fromBufferAttribute rest 1 in
      let cb := Vector3.crossVectors (Vector3.subVectors pC pB) (Vector3.subVectors pA pB) in
      let n := Vector3.fround (Vector3.normalize (Vector3.fround cb)) in
      take (length position) [n; n; n] ++ faceNormals fuel' (drop 2 rest)
  | _, _ => []
  end.

Definition computeVertexNormals_nonIndexed (position : BufferAttribute) : BufferAttribute :=
  faceNormals (length position) position.

(** ** Scene objects

    Every object carries the identity three.js compares in [remove].  The
    constructors are named after the place of the program that creates
    the object. *)

Record Sprite : Set := {
  sprite_map : option string;      (* the text drawn on the canvas texture *)
  sprite_position : Vector3;
  sprite_scale : Vector3
}.

(** [new THREE.Sprite()] *)
Definition newSprite : Sprite :=
  {| sprite_map := None; sprite_position := Vector3.zero; sprite_scale := Vector3.mk 1 1 1 |}.

Inductive ObjectKind : Set :=
  | AmbientLight
  | DirectionalLight
  | Model                                  (* the [THREE.Mesh] of a loaded STL *)
  | Marker (position : Vector3)            (* sphere [THREE.Mesh], [isPoint = true] *)
  | MeasureLineObject (points : list Vector3)    (* red [THREE.Line] *)
  | MarginLineObject (points : list Vector3)     (* green [THREE.Line] *)
  | DistanceLabel (sprite : Sprite)        (* from [createDistanceLabel] *)
  | NoteLabel (sprite : Sprite)            (* from [createNoteLabel] *)
  | PlaneHelper (plane : PlaneRef).

Record Object3D : Set := { uuid : nat; kind : ObjectKind }.

(** [child instanceof THREE.Mesh] *)
Definition instanceofMesh (o : Object3D) : bool :=
  match kind o with Model | Marker _ => true | _ => false end.

(** [(child as any).isPoint] *)
Definition isPoint (o : Object3D) : bool :=
  match kind o with Marker _ => true | _ => false end.

Definition isMeasureLine (o : Object3D) : bool :=
  match kind o with MeasureLineObject _ => true | _ => false end.

Definition isDistanceLabel (o : Object3D) : bool :=
  match kind o with DistanceLabel _ => true | _ => false end.

(** [scene.remove(object)]: splice out the first child that is [object]. *)
Fixpoint sceneRemove (object : Object3D) (children : list Object3D) : list Object3D :=
  match children with
  | [] => []
  | child :: rest =>
      if decide (uuid child = uuid object) then rest
      else child :: sceneRemove object rest
  end.

(** [scene.add(object)] for an object that has no parent yet. *)
Definition sceneAdd (object : Object3D) (children : list Object3D) : list Object3D :=
  children ++ [object].

(** [children.forEach(child => { if (child instanceof THREE.Mesh &&
    !child.isPoint) scene.remove(child) })]: [forEach] visits the indices
    [k] below the length the array had at the start and reads the live
    array, which the callback shortens. *)
Fixpoint clearModels (visits k : nat) (children : list Object3D) : list Object3D :=
  match visits with
  | 0 => children
  | S visits' =>
      match children !! k with
      | Some child =>
          if instanceofMesh child && negb (isPoint child)
          then clearModels visits' (S k) (sceneRemove child children)
          else clearModels visits' (S k) children
      | None => clearModels visits' (S k) children
      end
  end.

(** ** Labels *)

Section Labels.

Variable numberToString : float -> string.

(** [createDistanceLabel(distance, position)]; [context] tells whether
    [canvas.getContext('2d')] gave a context. *)
Definition createDistanceLabel (context : bool) (distance : float) (position : Vector3) : Sprite :=
  if context
  then {| sprite_map := Some (JS.toFixed2 numberToString distance ++ " units")%string;
          sprite_position := position;
          sprite_scale := Vector3.mk 0.5 0.25 1 |}
  else newSprite.

(** [createNoteLabel(text, position)] *)
Definition createNoteLabel (context : bool) (text : string) (position : Vector3) : Sprite :=
  if context
  then {| sprite_map := Some text;
          sprite_position := position;
          sprite_scale := Vector3.mk 1 0.5 1 |}
  else newSprite.

End Labels.

(** ** The state of [Viewer3D] *)

Record Point : Set := { point_position : Vector3; marker : Object3D }.
Record MeasurementLine : Set := { line : Object3D; label : Object3D }.
Record MarginLine : Set := { margin_points : list Vector3; margin_line : Object3D }.
Record Note : Set := { note_position : Vector3; note_text : string; note_sprite : Object3D }.
Record Toast : Set := { title : string; description : string }.

(** The hooks and refs of the component once it is mounted ([sceneRef],
    [cameraRef] and [rendererRef] are set by the first effect and never
    cleared while the click handler is registered), the [mode] prop, the
    planes allocated so far and the toasts emitted so far. *)
Record Viewer : Set := {
  children : list Object3D;                   (* sceneRef.current.children *)
  activeMeshRef : option Mesh;
  measureStartPoint : option Point;
  measureLine : option MeasurementLine;
  marginLine : option MarginLine;
  marginPoints : list Vector3;
  crossSectionValue : float;
  crossSectionPlaneRef : option PlaneRef;
  planeHelperRef : option Object3D;
  notes : list Note;
  mode : Mode;
  localClippingEnabled : bool;                (* rendererRef.current *)
  planes : list Plane;
  nextUuid : nat;
  toasts : list Toast
}.

Definition withChildren (c : list Object3D) (st : Viewer) : Viewer :=
  {| children := c; activeMeshRef := activeMeshRef st; measureStartPoint := measureStartPoint st;
     measureLine := measureLine st; marginLine := marginLine st; marginPoints := marginPoints st;
     crossSectionValue := crossSectionValue st; crossSectionPlaneRef := crossSectionPlaneRef st;
     planeHelperRef := planeHelperRef st; notes := notes st; mode := mode st;
     localClippingEnabled := localClippingEnabled st; planes := planes st;
     nextUuid := nextUuid st; toasts := toasts st |}.

Definition withActiveMesh (m : option Mesh) (st : Viewer) : Viewer :=
  {| children := children st; activeMeshRef := m; measureStartPoint := measureStartPoint st;
     measureLine := measureLine st; marginLine := marginLine st; marginPoints := marginPoints st;
     crossSectionValue := crossSectionValue st; crossSectionPlaneRef := crossSectionPlaneRef st;
     planeHelperRef := planeHelperRef st; notes := notes st; mode := mode st;
     localClippingEnabled := localClippingEnabled st; planes := planes st;
     nextUuid := nextUuid st; toasts := toasts st |}.

Definition setMeasureStartPoint (p : option Point) (st : Viewer) : Viewer :=
  {| children := children st; activeMeshRef := activeMeshRef st; measureStartPoint := p;
     measureLine := measureLine st; marginLine := marginLine st; marginPoints := marginPoints st;
     crossSectionValue := crossSectionValue st; crossSectionPlaneRef := crossSectionPlaneRef st;
     planeHelperRef := planeHelperRef st; notes := notes st; mode := mode st;
     localClippingEnabled := localClippingEnabled st; planes := planes st;
     nextUuid := nextUuid st; toasts := toasts st |}.

Definition setMeasureLine (l : option MeasurementLine) (st : Viewer) : Viewer :=
  {| children := children st; activeMeshRef := activeMeshRef st; measureStartPoint := measureStartPoint st;
     measureLine := l; marginLine := marginLine st; marginPoints := marginPoints st;
     crossSectionValue := crossSectionValue st; crossSectionPlaneRef := crossSectionPlaneRef st;
     planeHelperRef := planeHelperRef st; notes := notes st; mode := mode st;
     localClippingEnabled := localClippingEnabled st; planes := planes st;
     nextUuid := nextUuid st; toasts := toasts st |}.

Definition setMarginLine (l : option MarginLine) (st : Viewer) : Viewer :=
  {| children := children st; activeMeshRef := activeMeshRef st; measureStartPoint := measureStartPoint st;
     measureLine := measureLine st; marginLine := l; marginPoints := marginPoints st;
     crossSectionValue := crossSectionValue st; crossSectionPlaneRef := crossSectionPlaneRef st;
     planeHelperRef := planeHelperRef st; notes := notes st; mode := mode st;
     localClippingEnabled := localClippingEnabled st; planes := planes st;
     nextUuid := nextUuid st; toasts := toasts st |}.

Definition setMarginPoints (ps : list Vector3) (st : Viewer) : Viewer :=
  {| children := children st; activeMeshRef := activeMeshRef st; measureStartPoint := measureStartPoint st;
     measureLine := measureLine st; marginLine := marginLine st; marginPoints := ps;
     crossSectionValue := crossSectionValue st; crossSectionPlaneRef := crossSectionPlaneRef st;
     planeHelperRef := planeHelperRef st; notes := notes st; mode := mode st;
     localClippingEnabled := localClippingEnabled st; planes := planes st;
     nextUuid := nextUuid st; toasts := toasts st |}.

Definition withCrossSectionValue (v : float) (st : Viewer) : Viewer :=
  {| children := children st; activeMeshRef := activeMeshRef st; measureStartPoint := measureStartPoint st;
     measureLine := measureLine st; marginLine := marginLine st; marginPoints := marginPoints st;
     crossSectionValue := v; crossSectionPlaneRef := crossSectionPlaneRef st;
     planeHelperRef := planeHelperRef st; notes := notes st; mode := mode st;
     localClippingEnabled := localClippingEnabled st; planes := planes st;
     nextUuid := nextUuid st; toasts := toasts st |}.

Definition withCrossSection (r : option PlaneRef) (h : option Object3D) (enabled : bool)
    (ps : list Plane) (st : Viewer) : Viewer :=
  {| children := children st; activeMeshRef := activeMeshRef st; measureStartPoint := measureStartPoint st;
     measureLine := measureLine st; marginLine := marginLine st; marginPoints := marginPoints st;
     crossSectionValue := crossSectionValue st; crossSectionPlaneRef := r;
     planeHelperRef := h; notes := notes st; mode := mode st;
     localClippingEnabled := enabled; planes := ps;
     nextUuid := nextUuid st; toasts := toasts st |}.

Definition withPlanes (ps : list Plane) (st : Viewer) : Viewer :=
  {| children := children st; activeMeshRef := activeMeshRef st; measureStartPoint := measureStartPoint st;
     measureLine := measureLine st; marginLine := marginLine st; marginPoints := marginPoints st;
     crossSectionValue := crossSectionValue st; crossSectionPlaneRef := crossSectionPlaneRef st;
     planeHelperRef := planeHelperRef st; notes := notes st; mode := mode st;
     localClippingEnabled := localClippingEnabled st; planes := ps;
     nextUuid := nextUuid st; toasts := toasts st |}.

Definition setNotes (ns : list Note) (st : Viewer) : Viewer :=
  {| children := children st; activeMeshRef := activeMeshRef st; measureStartPoint := measureStartPoint st;
     measureLine := measureLine st; marginLine := marginLine st; marginPoints := marginPoints st;
     crossSectionValue := crossSectionValue st; crossSectionPlaneRef := crossSectionPlaneRef st;
     planeHelperRef := planeHelperRef st; notes := ns; mode := mode st;
     localClippingEnabled := localClippingEnabled st; planes := planes st;
     nextUuid := nextUuid st; toasts := toasts st |}.

Definition withMode (m : Mode) (st : Viewer) : Viewer :=
  {| children := children st; activeMeshRef := activeMeshRef st; measureStartPoint := measureStartPoint st;
     measureLine := measureLine st; marginLine := marginLine st; marginPoints := marginPoints st;
     crossSectionValue := crossSectionValue st; crossSectionPlaneRef := crossSectionPlaneRef st;
     planeHelperRef := planeHelperRef st; notes := notes st; mode := m;
     localClippingEnabled := localClippingEnabled st; planes := planes st;
     nextUuid := nextUuid st; toasts := toasts st |}.

Definition withNextUuid (n : nat) (st : Viewer) : Viewer :=
  {| children := children st; activeMeshRef := activeMeshRef st; measureStartPoint := measureStartPoint st;
     measureLine := measureLine st; marginLine := marginLine st; marginPoints := marginPoints st;
     crossSectionValue := crossSectionValue st; crossSectionPlaneRef := crossSectionPlaneRef st;
     planeHelperRef := planeHelperRef st; notes := notes st; mode := mode st;
     localClippingEnabled := localClippingEnabled st; planes := planes st;
     nextUuid := n; toasts := toasts st |}.

Definition toast (t d : string) (st : Viewer) : Viewer :=
  {| children := children st; activeMeshRef := activeMeshRef st; measureStartPoint := measureStartPoint st;
     measureLine := measureLine st; marginLine := marginLine st; marginPoints := marginPoints st;
     crossSectionValue := crossSectionValue st; crossSectionPlaneRef := crossSectionPlaneRef st;
     planeHelperRef := planeHelperRef st; notes := notes st; mode := mode st;
     localClippingEnabled := localClippingEnabled st; planes := planes st;
     nextUuid := nextUuid st; toasts := toasts st ++ [{| title := t; description := d |}] |}.

(** The component after its mount effects: the scene holds the two lights. *)
Definition mounted (m : Mode) : Viewer :=
  {| children := [ {| uuid := 0; kind := AmbientLight |}; {| uuid := 1; kind := DirectionalLight |} ];
     activeMeshRef := None; measureStartPoint := None; measureLine := None;
     marginLine := None; marginPoints := []; crossSectionValue := 0;
     crossSectionPlaneRef := None; planeHelperRef := None; notes := []; mode := m;
     localClippingEnabled := false; planes := []; nextUuid := 2; toasts := [] |}.

(** ** The operations of [Viewer3D] *)

(** What the FileReader and the STL decoder hand to [reader.onload]. *)
Inductive ParseResult : Set :=
  | NoResult                                (* [event.target?.result] is empty *)
  | ParseError                              (* [loader.parse] throws *)
  | Parsed (decoded : BufferGeometry).

(** What happens to the mounted component.  A click carries what the
    raycaster, the canvas and the prompt dialog answer. *)
Inductive Event : Set :=
  | Click (hit : option Vector3) (context : bool) (promptText : option string)
  | ModeChange (m : Mode)
  | SliderChange (value : float)
  | FileLoaded (result : ParseResult).

Section Handlers.

(** Library routines the program calls and whose code is three.js's:
    [geometry.computeVertexNormals()] as a function of the positions,
    [color.setHSL(h, s, l)], and the center of the bounding box. *)
Variable computeVertexNormals : BufferAttribute -> BufferAttribute.
Variable setHSL : float -> float -> float -> Color.
Variable boundingBoxCenter : BufferAttribute -> Vector3.
Variable numberToString : float -> string.

(** The body of [applyDeformation] on the geometry of the active mesh. *)
Definition deformGeometry (m : Mode) (point : Vector3) (radius strength : float)
    (g : BufferGeometry) : BufferGeometry :=
  let position :=
    deformLoop m point radius strength (attributes_normal g) (attributes_position g) in
  {| attributes_position := position;
     attributes_normal := computeVertexNormals position;
     attributes_color := attributes_color g |}.

Definition withGeometry (g : BufferGeometry) (mesh : Mesh) : Mesh :=
  {| mesh_uuid := mesh_uuid mesh; geometry := g; material := material mesh;
     mesh_position := mesh_position mesh |}.

Definition withMaterial (mat : MeshPhongMaterial) (mesh : Mesh) : Mesh :=
  {| mesh_uuid := mesh_uuid mesh; geometry := geometry mesh; material := mat;
     mesh_position := mesh_position mesh |}.

(** [applyDeformation(point, radius = 1, strength = 0.5)] *)
Definition applyDeformation (point : Vector3) (radius strength : float) (st : Viewer) : Viewer :=
  match activeMeshRef st with
  | None => st
  | Some mesh =>
      withActiveMesh
        (Some (withGeometry (deformGeometry (mode st) point radius strength (geometry mesh)) mesh))
        st
  end.

(** The colour [performOcclusalAnalysis] stores for one vertex. *)
Definition occlusalColor (point vertex : Vector3) : Color :=
  let distance := Vector3.distanceTo vertex point in
  Color.fround (setHSL (if (distance <? 0.5)%float then 0%float else 0.6%float) 1 0.5).

(** [performOcclusalAnalysis(point)] *)
Definition performOcclusalAnalysis (point : Vector3) (st : Viewer) : Viewer :=
  match activeMeshRef st with
  | None => st
  | Some mesh =>
      let g := geometry mesh in
      let colors := map (occlusalColor point) (attributes_position g) in
      let g' := {| attributes_position := attributes_position g;
                   attributes_normal := attributes_normal g;
                   attributes_color := Some colors |} in
      let mat := {| vertexColors := true;
                    clippingPlanes := clippingPlanes (material mesh) |} in
      withActiveMesh (Some (withMaterial mat (withGeometry g' mesh))) st
  end.

(** [createMarginLine(points)] *)
Definition createMarginLine (points : list Vector3) (st : Viewer) : Viewer :=
  if decide (length points < 2) then st
  else
    let l := {| uuid := nextUuid st; kind := MarginLineObject points |} in
    let c := match marginLine st with
             | Some old => sceneRemove (margin_line old) (children st)
             | None => children st
             end in
    setMarginLine (Some {| margin_points := points; margin_line := l |})
      (withChildren (sceneAdd l c) (withNextUuid (S (nextUuid st)) st)).

(** [createCrossSection(point, normal)] *)
Definition createCrossSection (point normal : Vector3) (st : Viewer) : Viewer :=
  match activeMeshRef st with
  | None => st
  | Some mesh =>
      let c := match planeHelperRef st with
               | Some old => sceneRemove old (children st)
               | None => children st
               end in
      let plane := setFromNormalAndCoplanarPoint normal point in
      let ref := length (planes st) in
      let helper := {| uuid := nextUuid st; kind := PlaneHelper ref |} in
      let mat := {| vertexColors := vertexColors (material mesh);
                    clippingPlanes := [ref] |} in
      withActiveMesh (Some (withMaterial mat mesh))
        (withCrossSection (Some ref) (Some helper) true (planes st ++ [plane])
           (withChildren (sceneAdd helper c) (withNextUuid (S (nextUuid st)) st)))
  end.

Definition withConstant (c : float) (p : Plane) : Plane :=
  {| plane_normal := plane_normal p; constant := c |}.

(** The effect with dependencies [[crossSectionValue, mode]]. *)
Definition crossSectionEffect (st : Viewer) : Viewer :=
  match mode st, crossSectionPlaneRef st, planeHelperRef st with
  | section, Some ref, Some _ =>
      withPlanes (alter (withConstant (- crossSectionValue st)%float) ref (planes st)) st
  | _, _, _ => st
  end.

(** [setCrossSectionValue(value)]: React keeps the state and runs no
    effect when the new value is the old one; otherwise the component
    renders again and the effect above, one of whose dependencies
    changed, runs. *)
Definition setCrossSectionValue (value : float) (st : Viewer) : Viewer :=
  if JS.sameValue value (crossSectionValue st) then st
  else crossSectionEffect (withCrossSectionValue value st).

(** The parent passes another [mode]. *)
Definition changeMode (m : Mode) (st : Viewer) : Viewer :=
  if decide (m = mode st) then st else crossSectionEffect (withMode m st).

(** The slider exists only while [mode === 'section' &&
    planeHelperRef.current]; its [onValueChange] sets the state. *)
Definition onValueChange (value : float) (st : Viewer) : Viewer :=
  match mode st, planeHelperRef st with
  | section, Some _ => setCrossSectionValue value st
  | _, _ => st
  end.

Definition newMarker (position : Vector3) (st : Viewer) : Object3D :=
  {| uuid := nextUuid st; kind := Marker position |}.

(** The [measure] case of [handleClick]. *)
Definition recordPoint (context : bool) (point : Vector3) (st : Viewer) : Viewer :=
  let pointMesh := newMarker point st in
  match measureStartPoint st with
  | None =>
      setMeasureStartPoint (Some {| point_position := point; marker := pointMesh |})
        (withChildren (sceneAdd pointMesh (children st))
           (withNextUuid (S (nextUuid st)) st))
  | Some start =>
      let c := sceneAdd pointMesh (children st) in
      let distance := Vector3.distanceTo (point_position start) point in
      let l := {| uuid := S (nextUuid st);
                  kind := MeasureLineObject [point_position start; point] |} in
      let midPoint :=
        Vector3.multiplyScalar (Vector3.addVectors (point_position start) point) 0.5 in
      let lab := {| uuid := S (S (nextUuid st));
                    kind := DistanceLabel
                              (createDistanceLabel numberToString context distance midPoint) |} in
      let c := match measureLine st with
               | Some old => sceneRemove (label old) (sceneRemove (line old) c)
               | None => c
               end in
      let c := sceneAdd lab (sceneAdd l c) in
      let st := setMeasureLine (Some {| line := l; label := lab |}) st in
      let st := toast "Measurement"
                  ("Distance: " ++ JS.toFixed2 numberToString distance ++ " units") st in
      let c := sceneRemove pointMesh (sceneRemove (marker start) c) in
      setMeasureStartPoint None
        (withChildren c (withNextUuid (S (S (S (nextUuid st)))) st))
  end.

(** [handleClick]: nothing happens unless the ray hits an object. *)
Definition handleClick (hit : option Vector3) (context : bool) (promptText : option string)
    (st : Viewer) : Viewer :=
  match hit with
  | None => st
  | Some intersectionPoint =>
      match mode st with
      | push | smooth | scale => applyDeformation intersectionPoint 1 0.5 st
      | margin =>
          let points := marginPoints st ++ [intersectionPoint] in
          createMarginLine points (setMarginPoints points st)
      | occlusal =>
          toast "Occlusal Analysis" "Analysis complete. Red areas indicate close contacts."
            (performOcclusalAnalysis intersectionPoint st)
      | section =>
          toast "Cross Section"
            "Cross section view created. Use the slider to adjust position."
            (setCrossSectionValue 0
               (createCrossSection intersectionPoint (Vector3.mk 0 1 0) st))
      | measure => recordPoint context intersectionPoint st
      | pick =>
          withChildren (sceneAdd (newMarker intersectionPoint st) (children st))
            (withNextUuid (S (nextUuid st)) st)
      | note =>
          match promptText with
          | Some noteText =>
              if String.eqb noteText EmptyString then st
              else
                let sprite := {| uuid := nextUuid st;
                                 kind := NoteLabel (createNoteLabel context noteText intersectionPoint) |} in
                toast "Note Added" "Note has been placed on the model."
                  (setNotes (notes st ++ [{| note_position := intersectionPoint;
                                             note_text := noteText;
                                             note_sprite := sprite |}])
                     (withChildren (sceneAdd sprite (children st))
                        (withNextUuid (S (nextUuid st)) st)))
          | None => st
          end
      | view => st
      end
  end.

(** [reader.onload] of the effect that loads [stlFile]. *)
Definition onload (result : ParseResult) (st : Viewer) : Viewer :=
  match result with
  | NoResult => st
  | ParseError =>
      toast "Error loading STL file" "The file might be corrupted or invalid" st
  | Parsed decoded =>
      let center := boundingBoxCenter (attributes_position decoded) in
      let mesh := {| mesh_uuid := nextUuid st; geometry := decoded; material := newMaterial;
                     mesh_position := Vector3.sub Vector3.zero center |} in
      let c := clearModels (length (children st)) 0 (children st) in
      withActiveMesh (Some mesh)
        (withChildren (sceneAdd {| uuid := nextUuid st; kind := Model |} c)
           (withNextUuid (S (nextUuid st)) st))
  end.

Definition step (st : Viewer) (e : Event) : Viewer :=
  match e with
  | Click hit context promptText => handleClick hit context promptText st
  | ModeChange m => changeMode m st
  | SliderChange value => onValueChange value st
  | FileLoaded result => onload result st
  end.

(** The states the component goes through from its mount. *)
Inductive reachable : Viewer -> Prop :=
  | reachable_mounted : reachable (mounted view)
  | reachable_step st e : reachable st -> reachable (step st e).

End Handlers.
(** ** Reference definitions for the statements *)

(** The sum, from left to right and starting from 0, of one coordinate of
    the positions at the given indices. *)
Definition coordinateSum (coordinate : Vector3 -> float) (indices : list nat)
    (position : BufferAttribute) : float :=
  foldl (fun acc index => (acc + coordinate (fromBufferAttribute position index))%float)
        0%float indices.

(** The number of the given indices as a machine integer, converted to
    the nearest binary64 value by the processor's own conversion. *)
Definition count (indices : list nat) : float :=
  PrimFloat.of_uint63 (Uint63.of_Z (Z.of_nat (length indices))).

(** The centroid of the positions at the given indices: each coordinate
    sum times the reciprocal of their number. *)
Definition centroid (indices : list nat) (position : BufferAttribute) : Vector3 :=
  let n := (1 / count indices)%float in
  Vector3.mk (coordinateSum Vector3.x indices position * n)
             (coordinateSum Vector3.y indices position * n)
             (coordinateSum Vector3.z indices position * n).

(** The position attribute as [applyDeformation] finds it when its loop
    reaches index [i]: the vertices of lower index have been visited. *)
Definition positionAtVisit (mode : Mode) (point : Vector3) (radius strength : float)
    (normal position : BufferAttribute) (i : nat) : BufferAttribute :=
  deformPass mode point radius strength normal (seq 0 i) position.

(** The geometry of the active mesh. *)
Definition activeGeometry (st : Viewer) : option BufferGeometry :=
  geometry <$> activeMeshRef st.

(** ** Example states *)

(** A geometry as the STL decoder delivers it. *)
Definition decodedGeometry (position normal : BufferAttribute) : BufferGeometry :=
  {| attributes_position := position; attributes_normal := normal; attributes_color := None |}.

(** The component after a file with the given geometry was loaded and the
    given tool selected. *)
Definition viewerWith (m : Mode) (g : BufferGeometry) : Viewer :=
  changeMode m (onload (fun _ => Vector3.zero) (Parsed g) (mounted view)).

(** One face in the plane z = 0, with the normals of that plane. *)
Definition flatTriangle : BufferGeometry :=
  decodedGeometry
    [Vector3.mk 0 0 0; Vector3.mk 1 0 0; Vector3.mk 0 1 0]
    [Vector3.mk 0 0 1; Vector3.mk 0 0 1; Vector3.mk 0 0 1].

(** The two colours of the occlusal analysis, as stored in the
    [Float32Array] of the colour attribute. *)
Definition nearContactColor (setHSL : float -> float -> float -> Color) : Color :=
  Color.fround (setHSL 0%float 1%float 0.5%float).

Definition farColor (setHSL : float -> float -> float -> Color) : Color :=
  Color.fround (setHSL 0.6%float 1%float 0.5%float).

(** three.js's HSL conversion for a hue in [0,1) and saturation and
    lightness in [0,1] (where it neither wraps nor clamps), in the sRGB
    working space; it instantiates [setHSL] in the examples. *)
Definition hue2rgb (p q t : float) : float :=
  let t := if (t <? 0)%float then (t + 1)%float else t in
  let t := if (1 <? t)%float then (t - 1)%float else t in
  if (t <? 1 / 6)%float then (p + (q - p) * 6 * t)%float
  else if (t <? 1 / 2)%float then q
  else if (t <? 2 / 3)%float then (p + (q - p) * 6 * (2 / 3 - t))%float
  else p.

Definition hslToRgb (h s l : float) : Color :=
  if (s =? 0)%float then Color.mk l l l
  else
    let p := if (l <=? 0.5)%float then (l * (1 + s))%float else (l + s - l * s)%float in
    let q := (2 * l - p)%float in
    Color.mk (hue2rgb q p (h + 1 / 3)%float) (hue2rgb q p h) (hue2rgb q p (h - 1 / 3)%float).

(** The objects the measurement tool shows. *)
Definition measureLinesIn (c : list Object3D) : list Object3D := filter isMeasureLine c.
Definition distanceLabelsIn (c : list Object3D) : list Object3D := filter isDistanceLabel c.
Definition markersIn (c : list Object3D) : list Object3D := filter isPoint c.

(** What the load handler removes from the scene. *)
Definition isModel (o : Object3D) : bool := instanceofMesh o && negb (isPoint o).

(** The scene objects the state refers to and can remove later. *)
Definition storedObjects (st : Viewer) : list Object3D :=
  option_list (marker <$> measureStartPoint st) ++
  option_list (margin_line <$> marginLine st) ++
  option_list (planeHelperRef st).

(** The invariant of the scene: identities are unique and below the
    next one to hand out, the objects the state refers to are distinct
    objects of the scene, and the measurement lines and labels in the
    scene are those of [measureLine]. *)
Record Inv (c : list Object3D) (n : nat) (stored : list Object3D)
    (ml : option MeasurementLine) : Prop := {
  inv_nodup : NoDup (uuid <$> c);
  inv_fresh : forall o, o ∈ c -> uuid o < n;
  inv_stored : forall r, r ∈ stored ->
      r ∈ c /\ isMeasureLine r = false /\ isDistanceLabel r = false /\ isModel r = false;
  inv_stored_nodup : NoDup stored;
  inv_lines : measureLinesIn c = option_list (line <$> ml);
  inv_labels : distanceLabelsIn c = option_list (label <$> ml)
}.

Definition invariant (st : Viewer) : Prop :=
  Inv (children st) (nextUuid st) (storedObjects st) (measureLine st).

(** The cross-section is set up on plane [ref]: the tool is selected, the
    plane is the one referred to by [crossSectionPlaneRef], it clips the
    material of the active mesh, its helper is shown and its normal is
    [normal]. *)
Definition sectionActive (ref : PlaneRef) (normal : Vector3) (st : Viewer) : Prop :=
  mode st = section /\
  crossSectionPlaneRef st = Some ref /\
  is_Some (planeHelperRef st) /\
  (clippingPlanes ∘ material) <$> activeMeshRef st = Some [ref] /\
  plane_normal <$> planes st !! ref = Some normal.

(** Stands for [Number::toString] in the examples, none of which formats
    a number as large as 10^21. *)
Definition exampleNumberToString (a : float) : string := "1e+21".

(** The click of the examples: the ray hits the model at [point], the
    canvas gives a 2D context, no prompt is answered. *)
Definition clickAt (point : Vector3) : Event := Click (Some point) true None.

Definition exampleStep : Viewer -> Event -> Viewer :=
  step computeVertexNormals_nonIndexed hslToRgb (fun _ => Vector3.zero) exampleNumberToString.

(** Two states with the same scene and the same references into it. *)
Definition sameScene (st st' : Viewer) : Prop :=
  children st' = children st /\
  nextUuid st' = nextUuid st /\
  measureStartPoint st' = measureStartPoint st /\
  measureLine st' = measureLine st /\
  marginLine st' = marginLine st /\
  planeHelperRef st' = planeHelperRef st.

(** The scene without the line and the label of the measurement shown,
    if one is. *)
Definition withoutMeasurement (ml : option MeasurementLine) (c : list Object3D) : list Object3D :=
  match ml with
  | Some old => sceneRemove (label old) (sceneRemove (line old) c)
  | None => c
  end.

(** The scene objects the load handler does not look for. *)
Definition otherThanModels (c : list Object3D) : list Object3D :=
  filter (fun o => isModel o = false) c.

(** A session of the examples: a file is loaded, then the events happen. *)
Definition session (events : list Event) : Viewer :=
  foldl exampleStep (mounted view) (FileLoaded (Parsed flatTriangle) :: events).

(** ** The scene by kind of object *)

Definition isMarginLine (o : Object3D) : bool :=
  match kind o with MarginLineObject _ => true | _ => false end.

Definition isPlaneHelper (o : Object3D) : bool :=
  match kind o with PlaneHelper _ => true | _ => false end.

Definition isNoteLabel (o : Object3D) : bool :=
  match kind o with NoteLabel _ => true | _ => false end.

Definition marginLinesIn (c : list Object3D) : list Object3D := filter isMarginLine c.
Definition planeHelpersIn (c : list Object3D) : list Object3D := filter isPlaneHelper c.
Definition noteLabelsIn (c : list Object3D) : list Object3D := filter isNoteLabel c.
Definition modelsIn (c : list Object3D) : list Object3D := filter isModel c.

(** The scene object of a loaded mesh. *)
Definition modelObject (mesh : Mesh) : Object3D :=
  {| uuid := mesh_uuid mesh; kind := Model |}.

(** What the state says about itself, whatever the scene holds: a stored
    marker is a marker at the stored point; the margin line exists from
    two margin points on and runs through all of them; the plane
    reference and the helper come together, the helper shows that plane
    and the plane exists; the active mesh is clipped by no plane or by
    that plane; every plane is horizontal; local clipping is enabled once
    a plane exists; a note has a text. *)
Record Coherent (st : Viewer) : Prop := {
  coh_marker : forall sp, measureStartPoint st = Some sp ->
      kind (marker sp) = Marker (point_position sp);
  coh_margin :
      match marginLine st with
      | Some mg => margin_points mg = marginPoints st /\
                   kind (margin_line mg) = MarginLineObject (marginPoints st) /\
                   2 <= length (marginPoints st)
      | None => length (marginPoints st) < 2
      end;
  coh_section :
      match crossSectionPlaneRef st, planeHelperRef st with
      | Some ref, Some helper =>
          kind helper = PlaneHelper ref /\ ref < length (planes st) /\
          localClippingEnabled st = true
      | None, None => True
      | _, _ => False
      end;
  coh_clipping : forall mesh, activeMeshRef st = Some mesh ->
      clippingPlanes (material mesh) = [] \/
      clippingPlanes (material mesh) = option_list (crossSectionPlaneRef st);
  coh_normals : forall plane, plane ∈ planes st -> plane_normal plane = Vector3.mk 0 1 0;
  coh_notes : forall nt, nt ∈ notes st ->
      note_text nt <> EmptyString /\ isNoteLabel (note_sprite nt) = true
}.

(** The scene holds, of each kind of object the state keeps track of,
    exactly the objects the state refers to. *)
Record Census (st : Viewer) : Prop := {
  cen_margin : marginLinesIn (children st) = option_list (margin_line <$> marginLine st);
  cen_helper : planeHelpersIn (children st) = option_list (planeHelperRef st);
  cen_notes : noteLabelsIn (children st) = note_sprite <$> notes st;
  cen_models : modelsIn (children st) = option_list (modelObject <$> activeMeshRef st)
}.

(** ** The page: [Index] *)

(** [String.prototype.endsWith] *)
Definition endsWith (s searchString : string) : bool :=
  let len := String.length s in
  let searchLength := String.length searchString in
  if len <? searchLength then false
  else String.eqb (String.substring (len - searchLength) searchLength s) searchString.

Record File : Set := { file_name : string }.

(** The state of [Index]: the two hooks and the toasts emitted. *)
Record Index : Set := {
  activeMode : Mode;
  stlFile : option File;
  index_toasts : list Toast
}.

(** [handleFileUpload]; the event carries [event.target.files]. *)
Definition handleFileUpload (files : list File) (st : Index) : Index :=
  match files with
  | file :: _ =>
      if endsWith (file_name file) ".stl"
      then {| activeMode := activeMode st;
              stlFile := Some file;
              index_toasts :=
                index_toasts st ++
                [{| title := "File uploaded successfully";
                    description := "Loaded: " ++ file_name file |}] |}
      else {| activeMode := activeMode st;
              stlFile := stlFile st;
              index_toasts :=
                index_toasts st ++
                [{| title := "Invalid file format";
                    description := "Please upload an STL file" |}] |}
  | [] =>
      {| activeMode := activeMode st;
         stlFile := stlFile st;
         index_toasts :=
           index_toasts st ++
           [{| title := "Invalid file format";
               description := "Please upload an STL file" |}] |}
  end%string.

(** ** Classes of binary64 values *)

(** [NaN], a zero of either sign, or a value whose sign bit is clear. *)
Definition SFnonneg (a : spec_float) : bool :=
  match a with
  | S754_nan | S754_zero _ | S754_infinity false | S754_finite false _ _ => true
  | _ => false
  end.

(** [Number.isFinite] *)
Definition isFiniteNumber (a : float) : bool :=
  match Prim2SF a with
  | S754_zero _ | S754_finite _ _ _ => true
  | _ => false
  end.

Definition isFiniteVector (v : Vector3) : bool :=
  isFiniteNumber (Vector3.x v) && isFiniteNumber (Vector3.y v) && isFiniteNumber (Vector3.z v).

(** * Properties *)

(** ** Facts about binary64 comparison *)

Lemma SFcompare_antisym (a b : spec_float) :
  SFcompare b a = option_map CompOpp (SFcompare a b).
Proof.
  destruct a as [sa|sa| |sa ma ea], b as [sb|sb| |sb mb eb]; simpl; try reflexivity;
    try (destruct sa; reflexivity); try (destruct sb; reflexivity);
    try (destruct sa, sb; reflexivity).
  destruct sa, sb; try reflexivity; f_equal;
    rewrite (Z.compare_antisym ea eb); destruct (ea ?= eb)%Z; simpl; try reflexivity.
  - f_equal. exact (eq_sym (Pos.compare_cont_antisym ma mb Eq)).
  - exact (eq_sym (Pos.compare_cont_antisym ma mb Eq)).
Qed.

(** [a <= b] excludes [b < a]. *)
Lemma leb_not_ltb (a b : float) : (a <=? b)%float = true -> (b <? a)%float = false.
Proof.
  rewrite FloatAxioms.leb_spec, FloatAxioms.ltb_spec. unfold SFleb, SFltb.
  rewrite (SFcompare_antisym (Prim2SF a) (Prim2SF b)).
  destruct (SFcompare (Prim2SF a) (Prim2SF b)) as [[]|]; simpl; congruence.
Qed.

(** ** The neighbour query *)

Lemma elem_of_findNeighborVertices (vertexIndex i : nat) (position : BufferAttribute) :
  i ∈ findNeighborVertices vertexIndex position <->
  i < length position /\ i <> vertexIndex /\
  (Vector3.distanceTo (fromBufferAttribute position vertexIndex)
                      (fromBufferAttribute position i) <? 0.1)%float = true.
Proof.
  unfold findNeighborVertices. rewrite list_elem_of_filter, elem_of_seq.
  split.
  - intros [[Hne Hd] [_ Hlt]]. auto.
  - intros (Hlt & Hne & Hd). repeat split; auto with lia.
Qed.



(** A vertex is not a neighbour of itself: the test [i !== vertexIndex]
    leaves it out of its own query. *)
Lemma findNeighborVertices_not_self (vertexIndex : nat) (position : BufferAttribute) :
  vertexIndex ∉ findNeighborVertices vertexIndex position.
Proof. rewrite elem_of_findNeighborVertices. intros (_ & Hne & _). now apply Hne. Qed.


(** ** The average position *)

Lemma foldl_add_coordinates (indices : list nat) (position : BufferAttribute) (acc : Vector3) :
  foldl (fun avg index => Vector3.add avg (fromBufferAttribute position index)) acc indices =
  Vector3.mk
    (foldl (fun a index => (a + Vector3.x (fromBufferAttribute position index))%float)
           (Vector3.x acc) indices)
    (foldl (fun a index => (a + Vector3.y (fromBufferAttribute position index))%float)
           (Vector3.y acc) indices)
    (foldl (fun a index => (a + Vector3.z (fromBufferAttribute position index))%float)
           (Vector3.z acc) indices).
Proof.
  revert acc. induction indices as [|index indices IH]; intros acc; simpl.
  - now destruct acc.
  - now rewrite IH.
Qed.

Lemma calculateAveragePosition_nil (position : BufferAttribute) :
  calculateAveragePosition [] position = Vector3.zero.
Proof. reflexivity. Qed.

(** The length of an array, as a number, is its length as a machine
    integer converted to binary64; array lengths are below 2^32. *)
Lemma ofNat_count (indices : list nat) :
  (Z.of_nat (length indices) < 2 ^ 63)%Z -> JS.ofNat (length indices) = count indices.
Proof.
  intros Hn. unfold JS.ofNat, count.
  rewrite <- (SF2Prim_Prim2SF (of_uint63 _)), of_uint63_spec, Uint63.of_Z_spec.
  rewrite Z.mod_small; [reflexivity|]. split; [lia|exact Hn].
Qed.

Lemma calculateAveragePosition_cons (index : nat) (indices : list nat) (position : BufferAttribute) :
  (Z.of_nat (length (index :: indices)) < 2 ^ 63)%Z ->
  calculateAveragePosition (index :: indices) position = centroid (index :: indices) position.
Proof.
  intros Hn. unfold calculateAveragePosition, centroid, coordinateSum.
  destruct (decide (0 < length (index :: indices))) as [_|H]; [|simpl in H; lia].
  rewrite (ofNat_count _ Hn). now rewrite foldl_add_coordinates.
Qed.

(** Without the guard [indices.length > 0] the empty set would give
    0 * (1 / 0), which is [NaN]. *)
Lemma divideScalar_zero_by_zero :
  Vector3.divideScalar Vector3.zero (JS.ofNat 0) = Vector3.undefined.
Proof. reflexivity. Qed.

(** C9: [calculateAveragePosition] returns the centroid of the positions
    at the given indices when there is at least one (an array holds fewer
    than 2^32 of them): each coordinate is the sum of that coordinate over
    the indices, times the reciprocal of their number.  It returns the zero
    vector (no [NaN], no error) when there is none; so the average over the
    neighbours of a vertex that has none is the zero vector. *)
Theorem calculateAveragePosition_spec (position : BufferAttribute) :
  (forall indices : list nat,
      indices <> [] ->
      (Z.of_nat (length indices) < 2 ^ 63)%Z ->
      calculateAveragePosition indices position = centroid indices position) /\
  calculateAveragePosition [] position = Vector3.zero /\
  (forall vertexIndex : nat,
      findNeighborVertices vertexIndex position = [] ->
      calculateAveragePosition (findNeighborVertices vertexIndex position) position
      = Vector3.zero).
Proof.
  split; [|split].
  - intros [|index indices] Hne Hn; [congruence|].
    now apply calculateAveragePosition_cons.
  - reflexivity.
  - intros vertexIndex ->. reflexivity.
Qed.

(** The average of (2,0,0), (3,0,0) and (7,0,0) is (4,0,0), and the one of
    the first two is (2.5,0,0): the sums 12 and 5 over the counts 3 and 2;
    over no index at all it is the zero vector. *)
Lemma calculateAveragePosition_spec_witness :
  let position := [Vector3.mk 2 0 0; Vector3.mk 3 0 0; Vector3.mk 7 0 0] in
  calculateAveragePosition [0; 1; 2] position = Vector3.mk 4 0 0 /\
  calculateAveragePosition [0; 1] position = Vector3.mk 2.5 0 0 /\
  calculateAveragePosition [] position = Vector3.zero.
Proof.
  intros position.
  destruct (calculateAveragePosition_spec position) as (Hcentroid & Hnone & _).
  split; [|split].
  - rewrite (Hcentroid [0; 1; 2]); [reflexivity|discriminate|reflexivity].
  - rewrite (Hcentroid [0; 1]); [reflexivity|discriminate|reflexivity].
  - exact Hnone.
Defined.

(** An isolated vertex: the two vertices are 1 apart, neither has a
    neighbour, and the average is the zero vector. *)
Example calculateAveragePosition_isolated :
  let position := [Vector3.mk 2 0 0; Vector3.mk 3 0 0] in
  findNeighborVertices 0 position = [] /\
  calculateAveragePosition (findNeighborVertices 0 position) position = Vector3.zero /\
  calculateAveragePosition [0; 1] position = Vector3.mk 2.5 0 0.
Proof. repeat split. Qed.

(** ** The deformation loop *)

Section DeformationFacts.

Variable mode : Mode.
Variable point : Vector3.
Variables radius strength : float.
Variable normal : BufferAttribute.

#[local] Abbreviation step := (deformStep mode point radius strength normal).
#[local] Abbreviation pass := (deformPass mode point radius strength normal).

Lemma fromBufferAttribute_ext (position position' : BufferAttribute) (i : nat) :
  position !! i = position' !! i ->
  fromBufferAttribute position i = fromBufferAttribute position' i.
Proof. unfold fromBufferAttribute. now intros ->. Qed.

Lemma deformStep_length (position : BufferAttribute) (i : nat) :
  length (step position i) = length position.
Proof.
  unfold step, deformStep, setXYZ.
  destruct (_ <? _)%float; [apply length_insert | reflexivity].
Qed.

Lemma deformStep_lookup_ne (position : BufferAttribute) (i j : nat) :
  i <> j -> step position i !! j = position !! j.
Proof.
  intros Hne. unfold step, deformStep, setXYZ.
  destruct (_ <? _)%float; [now apply list_lookup_insert_ne | reflexivity].
Qed.

Lemma deformPass_length (order : list nat) (position : BufferAttribute) :
  length (pass order position) = length position.
Proof.
  revert position. induction order as [|i order IH]; intros position; simpl; [reflexivity|].
  unfold pass, deformPass in *. simpl. rewrite IH. apply deformStep_length.
Qed.

Lemma deformPass_app (order order' : list nat) (position : BufferAttribute) :
  pass (order ++ order') position = pass order' (pass order position).
Proof. unfold pass, deformPass. apply foldl_app. Qed.

(** A vertex the loop does not visit keeps its position. *)
Lemma deformPass_lookup_notin (order : list nat) (position : BufferAttribute) (j : nat) :
  j ∉ order -> pass order position !! j = position !! j.
Proof.
  revert position. induction order as [|i order IH]; intros position Hj; [reflexivity|].
  apply not_elem_of_cons in Hj as [Hne Hj].
  unfold pass, deformPass in *. simpl. rewrite IH by assumption.
  apply deformStep_lookup_ne. congruence.
Qed.

(** A vertex that fails the test [distance < radius] is not written,
    whatever the mode and the order of the visit. *)
Lemma deformStep_out_of_range (position : BufferAttribute) (i : nat) :
  (Vector3.distanceTo (fromBufferAttribute position i) point <? radius)%float = false ->
  step position i = position.
Proof. intros H. unfold step, deformStep. now rewrite H. Qed.

Lemma deformPass_lookup_out_of_range (order : list nat) (position : BufferAttribute) (j : nat) :
  (Vector3.distanceTo (fromBufferAttribute position j) point <? radius)%float = false ->
  pass order position !! j = position !! j.
Proof.
  revert position. induction order as [|i order IH]; intros position Hfar; [reflexivity|].
  unfold pass, deformPass in *. simpl.
  destruct (decide (i = j)) as [->|Hne].
  - fold step. rewrite deformStep_out_of_range by assumption. now apply IH.
  - rewrite IH.
    + now apply deformStep_lookup_ne.
    + rewrite (fromBufferAttribute_ext _ position); [assumption|].
      now apply deformStep_lookup_ne.
Qed.

(** The position written for a vertex that is visited exactly once, when
    the brush does not read other positions (every mode but [smooth]). *)
Lemma deformedVertex_local (position position' : BufferAttribute) (i : nat)
    (vertex : Vector3) (influence : float) :
  mode <> smooth ->
  deformedVertex mode point strength normal position i vertex influence =
  deformedVertex mode point strength normal position' i vertex influence.
Proof. intros Hmode. unfold deformedVertex. destruct mode; congruence. Qed.

Lemma deformStep_lookup_local (position position' : BufferAttribute) (j : nat) :
  mode <> smooth ->
  position !! j = position' !! j ->
  step position j !! j = step position' j !! j.
Proof.
  intros Hmode Hj. unfold step, deformStep, setXYZ.
  rewrite (fromBufferAttribute_ext position position' j Hj).
  destruct (_ <? _)%float; [|assumption].
  rewrite (deformedVertex_local position position') by assumption.
  destruct (position !! j) as [v|] eqn:E.
  - rewrite !list_lookup_insert_eq; [reflexivity| |];
      eapply lookup_lt_Some; [symmetry in Hj|]; eassumption.
  - rewrite !list_insert_ge; [congruence| |]; apply lookup_ge_None; congruence.
Qed.

Lemma deformPass_lookup_local (order : list nat) (position : BufferAttribute) (j : nat) :
  mode <> smooth -> NoDup order -> j ∈ order ->
  pass order position !! j = step position j !! j.
Proof.
  intros Hmode. revert position.
  induction order as [|i order IH]; intros position Hnd Hj; [inversion Hj|].
  apply NoDup_cons in Hnd as [Hi Hnd].
  unfold pass, deformPass in *. simpl. fold step.
  apply elem_of_cons in Hj as [->|Hj].
  - now apply deformPass_lookup_notin.
  - rewrite IH by assumption.
    apply deformStep_lookup_local; [assumption|].
    apply deformStep_lookup_ne. intros ->. contradiction.
Qed.

(** What one step writes at its own index. *)
Lemma deformStep_lookup_eq (position : BufferAttribute) (j : nat) :
  step position j !! j =
  deformSnapshot mode point radius strength normal position !! j.
Proof.
  unfold step, deformStep, deformSnapshot, setXYZ, fromBufferAttribute.
  rewrite list_lookup_imap.
  destruct (position !! j) as [v|] eqn:E; simpl.
  - destruct (_ <? _)%float; [|assumption].
    apply list_lookup_insert_eq. eapply lookup_lt_Some; eassumption.
  - destruct (_ <? _)%float; [|assumption].
    rewrite list_insert_ge; [assumption|]. now apply lookup_ge_None.
Qed.

(** Visiting every index once, in any order, with a brush that reads
    only the vertex it moves: the result is the snapshot result. *)
Lemma deformPass_snapshot (order : list nat) (position : BufferAttribute) :
  mode <> smooth ->
  order ≡ₚ seq 0 (length position) ->
  pass order position = deformSnapshot mode point radius strength normal position.
Proof.
  intros Hmode Hperm. apply list_eq. intros j.
  destruct (decide (j < length position)) as [Hlt|Hge].
  - rewrite deformPass_lookup_local; [apply deformStep_lookup_eq|assumption| |].
    + rewrite Hperm. apply NoDup_seq.
    + rewrite Hperm. apply elem_of_seq. lia.
  - rewrite !(proj2 (lookup_ge_None _ _)); [reflexivity| |].
    + unfold deformSnapshot. rewrite length_imap. lia.
    + rewrite deformPass_length. lia.
Qed.

End DeformationFacts.

Section DeformationLoop.

Variable mode : Mode.
Variable point : Vector3.
Variables radius strength : float.
Variable normal : BufferAttribute.

Lemma positionAtVisit_lookup (position : BufferAttribute) (i : nat) :
  positionAtVisit mode point radius strength normal position i !! i = position !! i.
Proof.
  unfold positionAtVisit. apply deformPass_lookup_notin.
  rewrite elem_of_seq. lia.
Qed.

Lemma positionAtVisit_length (position : BufferAttribute) (i : nat) :
  length (positionAtVisit mode point radius strength normal position i) = length position.
Proof. apply deformPass_length. Qed.

(** The value the loop leaves at index [i] is the one its [i]-th
    iteration writes, computed on the attribute as it is then. *)
Lemma deformLoop_lookup (position : BufferAttribute) (i : nat) :
  i < length position ->
  deformLoop mode point radius strength normal position !! i =
  deformStep mode point radius strength normal
    (positionAtVisit mode point radius strength normal position i) i !! i.
Proof.
  intros Hlt. unfold deformLoop, positionAtVisit.
  replace (length position) with (i + S (length position - S i)) by lia.
  rewrite seq_app, deformPass_app. simpl.
  apply (deformPass_lookup_notin mode point radius strength normal
           (seq (S (0 + i)) (length position - S i))).
  rewrite elem_of_seq. lia.
Qed.

End DeformationLoop.

(** Two binary64 values are different when some comparison tells them
    apart. *)
Lemma float_neq (a b c : float) :
  (a =? c)%float = true -> (b =? c)%float = false -> a <> b.
Proof. intros Ha Hb ->. congruence. Qed.

(** ** The smooth brush on a vertex without neighbours *)

(** C10 (as the code has it): under the smooth brush, a vertex within the
    brush radius for which the neighbour query, run on the position
    attribute as the loop finds it when it reaches that vertex, returns no
    index, is overwritten with the binary32 rounding of its interpolation
    towards the origin (0,0,0) by the factor strength * influence. *)
Theorem smooth_isolated_vertex (point : Vector3) (radius strength : float)
    (normal position : BufferAttribute) (i : nat) :
  i < length position ->
  let vertex := fromBufferAttribute position i in
  let distance := Vector3.distanceTo vertex point in
  (distance <? radius)%float = true ->
  findNeighborVertices i (positionAtVisit smooth point radius strength normal position i) = [] ->
  deformLoop smooth point radius strength normal position !! i =
  Some (Vector3.fround
          (Vector3.lerp vertex Vector3.zero (strength * (1 - distance / radius))%float)).
Proof.
  intros Hlt vertex distance Hin Hnone.
  rewrite deformLoop_lookup by assumption.
  unfold deformStep.
  rewrite (fromBufferAttribute_ext _ position i (positionAtVisit_lookup _ _ _ _ _ _ _)).
  fold vertex. fold distance. rewrite Hin.
  unfold deformedVertex. rewrite Hnone, calculateAveragePosition_nil.
  unfold setXYZ. apply list_lookup_insert_eq.
  now rewrite positionAtVisit_length.
Qed.

Lemma smooth_isolated_vertex_witness :
  deformLoop smooth (Vector3.mk 0.25 0 0) 1 0.5 []
    [Vector3.mk 0.25 0 0; Vector3.mk 0.125 0 0] !! 0 =
  Some (Vector3.mk 0.125 0 0).
Proof.
  exact (smooth_isolated_vertex (Vector3.mk 0.25 0 0) 1 0.5 []
           [Vector3.mk 0.25 0 0; Vector3.mk 0.125 0 0] 0
           ltac:(simpl; lia) eq_refl eq_refl).
Defined.

(** C10 as stated fails: the vertices (0.25,0,0) and (0.125,0,0) are
    0.125 apart, so at call time neither has a neighbour, and both are
    within radius 1 of the pick point (0.25,0,0).  Vertex 0 is pulled
    towards the origin and lands on (0.125,0,0); when the loop reaches
    vertex 1 the query finds vertex 0 there, the centroid is (0.125,0,0)
    and vertex 1 stays where it was instead of moving towards the origin. *)
Lemma smooth_isolated_vertex_left_unchanged :
  let point := Vector3.mk 0.25 0 0 in
  let position := [Vector3.mk 0.25 0 0; Vector3.mk 0.125 0 0] in
  let vertex := fromBufferAttribute position 1 in
  let distance := Vector3.distanceTo vertex point in
  (distance <? 1)%float = true /\
  findNeighborVertices 1 position = [] /\
  deformLoop smooth point 1 0.5 [] position !! 1 = position !! 1 /\
  deformLoop smooth point 1 0.5 [] position !! 1 <>
  Some (Vector3.fround (Vector3.lerp vertex Vector3.zero (0.5 * (1 - distance / 1))%float)).
Proof.
  repeat split.
  intros H. apply (f_equal (fun o => from_option Vector3.x 0%float o)) in H.
  vm_compute in H. revert H. now apply (float_neq _ _ 0.125%float).
Qed.

(** ** The brush as a whole *)

Section Brush.

Variable computeVertexNormals : BufferAttribute -> BufferAttribute.

Lemma activeGeometry_applyDeformation (point : Vector3) (radius strength : float)
    (st : Viewer) (g : BufferGeometry) :
  activeGeometry st = Some g ->
  activeGeometry (applyDeformation computeVertexNormals point radius strength st) =
  Some (deformGeometry computeVertexNormals (mode st) point radius strength g).
Proof.
  unfold activeGeometry, applyDeformation.
  destruct (activeMeshRef st) as [mesh|]; simpl; [|discriminate].
  now intros [= ->].
Qed.

(** C2 (as the code has it): with the push brush, a vertex whose
    distance from the pick point is at least the radius keeps its
    position bit for bit; the normals are all recomputed from the new
    positions, that vertex's normal included. *)
Theorem push_keeps_far_positions (point : Vector3) (radius strength : float)
    (st : Viewer) (g : BufferGeometry) (j : nat) :
  mode st = push ->
  activeGeometry st = Some g ->
  (radius <=? Vector3.distanceTo (fromBufferAttribute (attributes_position g) j) point)%float
    = true ->
  exists g' : BufferGeometry,
    activeGeometry (applyDeformation computeVertexNormals point radius strength st) = Some g' /\
    attributes_position g' !! j = attributes_position g !! j /\
    attributes_normal g' = computeVertexNormals (attributes_position g').
Proof.
  intros Hmode Hg Hfar. eexists. split; [|split].
  - exact (activeGeometry_applyDeformation _ _ _ _ _ Hg).
  - simpl. apply deformPass_lookup_out_of_range. now apply leb_not_ltb.
  - reflexivity.
Qed.

(** C8 (as the code has it): the scale brush with strength 0 leaves
    every vertex that fails the test [distance < radius] where it is,
    and overwrites every other vertex v with the binary32 rounding of
    (v - point) * (1 + 0 * influence) + point, computed in binary64. *)
Theorem scale_strength_zero (point : Vector3) (radius : float)
    (st : Viewer) (g : BufferGeometry) :
  mode st = scale ->
  activeGeometry st = Some g ->
  exists g' : BufferGeometry,
    activeGeometry (applyDeformation computeVertexNormals point radius 0 st) = Some g' /\
    attributes_position g' =
    imap (fun _ vertex =>
            let distance := Vector3.distanceTo vertex point in
            if (distance <? radius)%float
            then Vector3.fround
                   (Vector3.add
                      (Vector3.multiplyScalar (Vector3.sub vertex point)
                         (1 + 0 * (1 - distance / radius))%float)
                      point)
            else vertex)
         (attributes_position g).
Proof.
  intros Hmode Hg. eexists. split.
  - exact (activeGeometry_applyDeformation _ _ _ _ _ Hg).
  - simpl. rewrite Hmode. unfold deformLoop.
    rewrite deformPass_snapshot; [reflexivity|discriminate|reflexivity].
Qed.

(** C1 (as the code has it): for the push and scale brushes (every mode
    but smooth) the new position of each vertex is computed from the
    positions and normals current at call time, so that visiting the
    vertices in any order gives the result of the program's loop; for
    every mode, each vertex's own position is still the call-time one
    when the loop reaches it, and the normals are afterwards those
    recomputed from the updated positions.  Vertex by vertex: a vertex
    that fails the test [distance < radius] keeps its position; any other
    is overwritten with the binary32 rounding of the brush's formula, in
    which the push brush reads the vertex's call-time normal, the scale
    brush nothing but the vertex and the pick point, and the smooth brush
    the neighbours of the vertex and their average position in the
    position attribute as the loop finds it on reaching that vertex, the
    vertices of lower index already moved. *)
Theorem applyDeformation_snapshot (point : Vector3) (radius strength : float)
    (st : Viewer) (g : BufferGeometry) :
  activeGeometry st = Some g ->
  exists g' : BufferGeometry,
    activeGeometry (applyDeformation computeVertexNormals point radius strength st) = Some g' /\
    attributes_normal g' = computeVertexNormals (attributes_position g') /\
    (forall i : nat,
        positionAtVisit (mode st) point radius strength (attributes_normal g)
          (attributes_position g) i !! i = attributes_position g !! i) /\
    (forall (i : nat) (vertex : Vector3),
        attributes_position g !! i = Some vertex ->
        let distance := Vector3.distanceTo vertex point in
        let influence := (1 - distance / radius)%float in
        let live := positionAtVisit (mode st) point radius strength (attributes_normal g)
                      (attributes_position g) i in
        attributes_position g' !! i =
        Some (if (distance <? radius)%float
              then Vector3.fround
                     match mode st with
                     | push =>
                         Vector3.add vertex
                           (Vector3.multiplyScalar
                              (fromBufferAttribute (attributes_normal g) i)
                              (strength * influence)%float)
                     | smooth =>
                         Vector3.lerp vertex
                           (calculateAveragePosition (findNeighborVertices i live) live)
                           (strength * influence)%float
                     | scale =>
                         Vector3.add
                           (Vector3.multiplyScalar (Vector3.sub vertex point)
                              (1 + strength * influence)%float)
                           point
                     | _ => vertex
                     end
              else vertex)) /\
    (mode st <> smooth ->
     attributes_position g' =
     deformSnapshot (mode st) point radius strength (attributes_normal g)
       (attributes_position g) /\
     forall order : list nat,
       order ≡ₚ seq 0 (length (attributes_position g)) ->
       deformPass (mode st) point radius strength (attributes_normal g) order
         (attributes_position g) = attributes_position g').
Proof.
  intros Hg. eexists. split; [|split; [|split; [|split]]].
  - exact (activeGeometry_applyDeformation _ _ _ _ _ Hg).
  - reflexivity.
  - intros i. apply positionAtVisit_lookup.
  - intros i vertex Hi distance influence live. simpl.
    assert (Hvertex : fromBufferAttribute live i = vertex).
    { unfold fromBufferAttribute, live. now rewrite positionAtVisit_lookup, Hi. }
    rewrite deformLoop_lookup by (eapply lookup_lt_Some; eassumption).
    unfold deformStep. fold live. rewrite Hvertex. fold distance.
    destruct (distance <? radius)%float.
    + unfold setXYZ. rewrite list_lookup_insert_eq.
      * unfold deformedVertex. fold influence. now destruct (mode st).
      * unfold live. rewrite positionAtVisit_length. eapply lookup_lt_Some; eassumption.
    + unfold live. now rewrite positionAtVisit_lookup.
  - intros Hmode. simpl. unfold deformLoop. split.
    + now apply deformPass_snapshot.
    + intros order Hperm.
      rewrite !deformPass_snapshot; auto.
Qed.

End Brush.

Lemma push_keeps_far_positions_witness :
  exists g' : BufferGeometry,
    activeGeometry
      (applyDeformation computeVertexNormals_nonIndexed Vector3.zero 0.5 0.5
         (viewerWith push flatTriangle)) = Some g' /\
    attributes_position g' !! 1 = attributes_position flatTriangle !! 1 /\
    attributes_normal g' = computeVertexNormals_nonIndexed (attributes_position g').
Proof.
  exact (push_keeps_far_positions computeVertexNormals_nonIndexed Vector3.zero 0.5 0.5
           (viewerWith push flatTriangle) flatTriangle 1 eq_refl eq_refl eq_refl).
Defined.

(** C2 as stated fails on the normals: pushing at the corner (0,0,0) of
    the flat triangle with radius 0.5 lifts that corner only; the corner
    (1,0,0) is at distance 1 from the pick point and keeps its position,
    but its normal, recomputed from the tilted face, is no longer
    (0,0,1). *)
Lemma push_changes_far_normal :
  let point := Vector3.zero in
  let g := flatTriangle in
  (0.5 <=? Vector3.distanceTo (fromBufferAttribute (attributes_position g) 1) point)%float = true /\
  exists g' : BufferGeometry,
    activeGeometry
      (applyDeformation computeVertexNormals_nonIndexed point 0.5 0.5 (viewerWith push g))
      = Some g' /\
    attributes_position g' !! 1 = attributes_position g !! 1 /\
    attributes_normal g !! 1 = Some (Vector3.mk 0 0 1) /\
    attributes_normal g' !! 1 <> attributes_normal g !! 1.
Proof.
  split; [reflexivity|]. eexists. split; [reflexivity|].
  split; [reflexivity|]. split; [reflexivity|].
  intros H. apply (f_equal (fun o => from_option Vector3.z 0%float o)) in H.
  vm_compute in H. revert H. apply not_eq_sym. now apply (float_neq _ _ 1%float).
Qed.

Lemma scale_strength_zero_witness :
  exists g' : BufferGeometry,
    activeGeometry
      (applyDeformation computeVertexNormals_nonIndexed (Vector3.mk 0.5 0 0) 1 0
         (viewerWith scale flatTriangle)) = Some g' /\
    attributes_position g' =
    [Vector3.mk 0 0 0; Vector3.mk 1 0 0; Vector3.mk 0 1 0].
Proof.
  exact (scale_strength_zero computeVertexNormals_nonIndexed (Vector3.mk 0.5 0 0) 1
           (viewerWith scale flatTriangle) flatTriangle eq_refl eq_refl).
Defined.

(** C8 as stated fails: scaling with strength 0 around the pick point
    (0.5,0,0) with radius 1 moves the vertex (2^-70,0,0), a binary32
    value, to (0,0,0): 2^-70 - 0.5 rounds to -0.5, times 1 is -0.5, plus
    0.5 is 0. *)
Lemma scale_strength_zero_moves_vertex :
  let g := decodedGeometry [Vector3.mk 0x1p-70 0 0] [Vector3.mk 0 0 1] in
  JS.fround 0x1p-70 = 0x1p-70%float /\
  exists g' : BufferGeometry,
    activeGeometry
      (applyDeformation computeVertexNormals_nonIndexed (Vector3.mk 0.5 0 0) 1 0
         (viewerWith scale g)) = Some g' /\
    attributes_position g' = [Vector3.mk 0 0 0] /\
    attributes_position g' <> attributes_position g.
Proof.
  split; [reflexivity|]. eexists. split; [reflexivity|]. split; [reflexivity|].
  intros H.
  apply (f_equal (fun l => from_option Vector3.x 1%float (l !! 0))) in H.
  vm_compute in H. revert H. now apply (float_neq _ _ 0%float).
Qed.

(** Pushing at the corner (0,0,0) of the flat triangle lifts that corner
    by 0.5 along its normal, in whatever order the vertices are visited;
    smoothing the vertices (0,0,0) and (0.0625,0,0) around (0,0,0) moves
    vertex 1 half of the way towards (0.03125,0,0), where vertex 0 has
    just been moved. *)
Lemma applyDeformation_snapshot_witness :
  (exists g' : BufferGeometry,
     activeGeometry
       (applyDeformation computeVertexNormals_nonIndexed Vector3.zero 0.5 0.5
          (viewerWith push flatTriangle)) = Some g' /\
     attributes_position g' !! 0 = Some (Vector3.mk 0 0 0.5) /\
     attributes_position g' = [Vector3.mk 0 0 0.5; Vector3.mk 1 0 0; Vector3.mk 0 1 0] /\
     deformPass push Vector3.zero 0.5 0.5 (attributes_normal flatTriangle) [2; 0; 1]
       (attributes_position flatTriangle) = attributes_position g') /\
  (exists g' : BufferGeometry,
     activeGeometry
       (applyDeformation computeVertexNormals_nonIndexed Vector3.zero 1 0.5
          (viewerWith smooth
             (decodedGeometry [Vector3.mk 0 0 0; Vector3.mk 0.0625 0 0] []))) = Some g' /\
     attributes_position g' !! 1 = Some (Vector3.mk 0.0478515625 0 0)).
Proof.
  split.
  - destruct (applyDeformation_snapshot computeVertexNormals_nonIndexed Vector3.zero 0.5 0.5
                (viewerWith push flatTriangle) flatTriangle eq_refl)
      as (g' & Hg' & _ & _ & Hvertex & Hlocal).
    exists g'. split; [exact Hg'|].
    destruct (Hlocal ltac:(discriminate)) as [Hsnap Horder]. split; [|split].
    + rewrite (Hvertex 0 Vector3.zero eq_refl). reflexivity.
    + rewrite Hsnap. reflexivity.
    + apply Horder. simpl.
      now rewrite (Permutation_swap 0 2 [1]), (Permutation_swap 1 2 []).
  - destruct (applyDeformation_snapshot computeVertexNormals_nonIndexed Vector3.zero 1 0.5
                (viewerWith smooth
                   (decodedGeometry [Vector3.mk 0 0 0; Vector3.mk 0.0625 0 0] []))
                (decodedGeometry [Vector3.mk 0 0 0; Vector3.mk 0.0625 0 0] []) eq_refl)
      as (g' & Hg' & _ & _ & Hvertex & _).
    exists g'. split; [exact Hg'|].
    rewrite (Hvertex 1 (Vector3.mk 0.0625 0 0) eq_refl). reflexivity.
Defined.

(** C1 as stated fails for the smooth brush: with the vertices (0,0,0)
    and (0.0625,0,0) and the pick point (0,0,0), vertex 0 moves to
    (0.03125,0,0) first, and vertex 1 is then averaged with that new
    position: it lands on 0.0478515625 where the call-time positions give
    0.033203125; visiting vertex 1 before vertex 0 gives yet another
    result. *)
Lemma smooth_reads_updated_positions :
  let position := [Vector3.mk 0 0 0; Vector3.mk 0.0625 0 0] in
  let g := decodedGeometry position [] in
  exists g' : BufferGeometry,
    activeGeometry
      (applyDeformation computeVertexNormals_nonIndexed Vector3.zero 1 0.5 (viewerWith smooth g))
      = Some g' /\
    attributes_position g' = [Vector3.mk 0.03125 0 0; Vector3.mk 0.0478515625 0 0] /\
    deformSnapshot smooth Vector3.zero 1 0.5 [] position
      = [Vector3.mk 0.03125 0 0; Vector3.mk 0.033203125 0 0] /\
    attributes_position g' <> deformSnapshot smooth Vector3.zero 1 0.5 [] position /\
    deformPass smooth Vector3.zero 1 0.5 [] [1; 0] position <> attributes_position g'.
Proof.
  eexists. split; [reflexivity|]. split; [reflexivity|]. split; [reflexivity|]. split.
  - intros H. apply (f_equal (fun l => from_option Vector3.x 0%float (l !! 1))) in H.
    vm_compute in H. revert H. now apply (float_neq _ _ 0.0478515625%float).
  - intros H. apply (f_equal (fun l => from_option Vector3.x 0%float (l !! 1))) in H.
    vm_compute in H. revert H. now apply (float_neq _ _ 0.033203125%float).
Qed.

(** ** The occlusal classification *)

Section Occlusal.

Variable setHSL : float -> float -> float -> Color.

Lemma occlusalColor_near (point vertex : Vector3) :
  (Vector3.distanceTo vertex point <? 0.5)%float = true ->
  occlusalColor setHSL point vertex = nearContactColor setHSL.
Proof. unfold occlusalColor, nearContactColor. now intros ->. Qed.

Lemma occlusalColor_far (point vertex : Vector3) :
  (Vector3.distanceTo vertex point <? 0.5)%float = false ->
  occlusalColor setHSL point vertex = farColor setHSL.
Proof. unfold occlusalColor, farColor. now intros ->. Qed.

Lemma performOcclusalAnalysis_idempotent (point : Vector3) (st : Viewer) :
  performOcclusalAnalysis setHSL point (performOcclusalAnalysis setHSL point st) =
  performOcclusalAnalysis setHSL point st.
Proof.
  unfold performOcclusalAnalysis.
  destruct (activeMeshRef st) as [mesh|] eqn:E; simpl; [reflexivity|].
  now rewrite E.
Qed.

(** C5: [performOcclusalAnalysis] gives every vertex closer than 0.5 to
    the reference point the near-contact colour and every vertex at
    distance 0.5 or more the far colour, so that each vertex has one of
    the two; it leaves the positions alone, flags the material to show
    vertex colours, and running it again with the same point changes
    nothing. *)
Theorem performOcclusalAnalysis_two_buckets (point : Vector3) (st : Viewer)
    (g : BufferGeometry) :
  activeGeometry st = Some g ->
  let st' := performOcclusalAnalysis setHSL point st in
  exists (g' : BufferGeometry) (colors : list Color),
    activeGeometry st' = Some g' /\
    attributes_color g' = Some colors /\
    attributes_position g' = attributes_position g /\
    (vertexColors ∘ material) <$> activeMeshRef st' = Some true /\
    (forall (i : nat) (vertex : Vector3),
        attributes_position g !! i = Some vertex ->
        ((Vector3.distanceTo vertex point <? 0.5)%float = true ->
         colors !! i = Some (nearContactColor setHSL)) /\
        ((0.5 <=? Vector3.distanceTo vertex point)%float = true ->
         colors !! i = Some (farColor setHSL)) /\
        (colors !! i = Some (nearContactColor setHSL) \/
         colors !! i = Some (farColor setHSL))) /\
    performOcclusalAnalysis setHSL point st' = st'.
Proof.
  intros Hg st'.
  unfold activeGeometry in Hg.
  destruct (activeMeshRef st) as [mesh|] eqn:E; [|discriminate].
  simpl in Hg. injection Hg as <-.
  assert (Hst' : activeMeshRef st' =
                 Some (withMaterial
                         {| vertexColors := true;
                            clippingPlanes := clippingPlanes (material mesh) |}
                         (withGeometry
                            {| attributes_position := attributes_position (geometry mesh);
                               attributes_normal := attributes_normal (geometry mesh);
                               attributes_color :=
                                 Some (map (occlusalColor setHSL point)
                                           (attributes_position (geometry mesh))) |}
                            mesh))).
  { subst st'. unfold performOcclusalAnalysis. now rewrite E. }
  eexists. eexists. unfold activeGeometry. rewrite Hst'. simpl.
  split; [reflexivity|]. split; [reflexivity|]. split; [reflexivity|].
  split; [reflexivity|]. split; [|apply performOcclusalAnalysis_idempotent].
  intros i vertex Hi. rewrite list_lookup_fmap, Hi. simpl.
  split; [|split].
  - intros Hnear. now rewrite occlusalColor_near.
  - intros Hfar. rewrite occlusalColor_far; [reflexivity|]. now apply leb_not_ltb.
  - destruct (Vector3.distanceTo vertex point <? 0.5)%float eqn:Hd.
    + left. now rewrite occlusalColor_near.
    + right. now rewrite occlusalColor_far.
Qed.

End Occlusal.

(** A vertex at distance exactly 0.5 is far; one at the reference point is
    in near contact; the colours are red and blue. *)
Lemma performOcclusalAnalysis_two_buckets_witness :
  let g := decodedGeometry [Vector3.mk 0 0 0; Vector3.mk 0.5 0 0; Vector3.mk 0 1 0] [] in
  let st' := performOcclusalAnalysis hslToRgb Vector3.zero (viewerWith occlusal g) in
  (attributes_color <$> activeGeometry st') =
  Some (Some [Color.mk 1 0 0; farColor hslToRgb; farColor hslToRgb]) /\
  performOcclusalAnalysis hslToRgb Vector3.zero st' = st'.
Proof.
  intros g st'.
  destruct (performOcclusalAnalysis_two_buckets hslToRgb Vector3.zero
              (viewerWith occlusal g) g eq_refl)
    as (g' & colors & Hg' & Hcolors & _ & _ & _ & Hsame).
  split; [reflexivity | exact Hsame].
Defined.

(** ** The cross-section plane *)

Lemma sameValue_eq (a b : float) : JS.sameValue a b = true -> a = b.
Proof. apply FloatAxioms.Leibniz.eqb_spec. Qed.

Section CrossSection.

Variable computeVertexNormals : BufferAttribute -> BufferAttribute.
Variable setHSL : float -> float -> float -> Color.
Variable boundingBoxCenter : BufferAttribute -> Vector3.
Variable numberToString : float -> string.

Lemma sectionActive_createCrossSection (point normal : Vector3) (st : Viewer) (mesh : Mesh) :
  mode st = section ->
  activeMeshRef st = Some mesh ->
  sectionActive (length (planes st)) normal (createCrossSection point normal st) /\
  planes (createCrossSection point normal st) !! length (planes st) =
    Some (setFromNormalAndCoplanarPoint normal point) /\
  crossSectionValue (createCrossSection point normal st) = crossSectionValue st.
Proof.
  intros Hmode Hmesh. unfold createCrossSection, sectionActive. rewrite Hmesh. simpl.
  rewrite lookup_app_r, Nat.sub_diag by lia. simpl. eauto 10.
Qed.

Lemma sectionActive_crossSectionEffect (ref : PlaneRef) (normal : Vector3) (st : Viewer) :
  sectionActive ref normal st ->
  sectionActive ref normal (crossSectionEffect st) /\
  planes (crossSectionEffect st) !! ref =
    Some {| plane_normal := normal; constant := (- crossSectionValue st)%float |} /\
  crossSectionValue (crossSectionEffect st) = crossSectionValue st.
Proof.
  intros (Hmode & Href & [helper Hhelper] & Hclip & Hnormal).
  unfold crossSectionEffect, sectionActive. rewrite Hmode, Href, Hhelper. simpl.
  destruct (planes st !! ref) as [plane|] eqn:Hplane; [|discriminate].
  simpl in Hnormal. injection Hnormal as <-.
  rewrite list_lookup_alter_eq, Hplane. simpl. unfold withConstant. eauto 10.
Qed.

(** After the click that creates the section the slider state is 0. *)
Lemma sectionActive_click (point : Vector3) (context : bool) (promptText : option string)
    (st : Viewer) (mesh : Mesh) :
  mode st = section ->
  activeMeshRef st = Some mesh ->
  let st1 := handleClick computeVertexNormals setHSL numberToString
               (Some point) context promptText st in
  sectionActive (length (planes st)) (Vector3.mk 0 1 0) st1 /\
  crossSectionValue st1 = 0%float.
Proof.
  intros Hmode Hmesh. unfold handleClick. rewrite Hmode. simpl.
  destruct (sectionActive_createCrossSection point (Vector3.mk 0 1 0) st mesh Hmode Hmesh)
    as (Hactive & _ & Hvalue).
  unfold setCrossSectionValue.
  destruct (JS.sameValue 0 _) eqn:Hsame.
  - split; [exact Hactive|]. symmetry. exact (sameValue_eq _ _ Hsame).
  - destruct (sectionActive_crossSectionEffect (length (planes st)) (Vector3.mk 0 1 0)
                (withCrossSectionValue 0 (createCrossSection point (Vector3.mk 0 1 0) st))
                Hactive)
      as (Hactive' & _ & Hvalue').
    split; [exact Hactive'|exact Hvalue'].
Qed.

(** C7 (as the code has it): after a cross-section was created at any
    pick point, moving the slider to a value other than the 0 it was
    reset to gives the plane that clips the active mesh the constant
    term -value exactly, whatever the pick point and the constant the
    plane was created with. *)
Theorem slider_sets_plane_constant (point : Vector3) (context : bool)
    (promptText : option string) (value : float) (st : Viewer) (mesh : Mesh) :
  mode st = section ->
  activeMeshRef st = Some mesh ->
  JS.sameValue value 0 = false ->
  let st1 := handleClick computeVertexNormals setHSL numberToString
               (Some point) context promptText st in
  let st2 := onValueChange value st1 in
  exists ref : PlaneRef,
    crossSectionPlaneRef st2 = Some ref /\
    (clippingPlanes ∘ material) <$> activeMeshRef st2 = Some [ref] /\
    planes st2 !! ref =
      Some {| plane_normal := Vector3.mk 0 1 0; constant := (- value)%float |}.
Proof.
  intros Hmode Hmesh Hvalue st1 st2.
  destruct (sectionActive_click point context promptText st mesh Hmode Hmesh)
    as [Hactive Hzero].
  fold st1 in Hactive, Hzero.
  assert (Hst2 : st2 = crossSectionEffect (withCrossSectionValue value st1)).
  { subst st2. unfold onValueChange, setCrossSectionValue.
    destruct Hactive as (-> & _ & [helper ->] & _). now rewrite Hzero, Hvalue. }
  destruct (sectionActive_crossSectionEffect (length (planes st)) (Vector3.mk 0 1 0)
              (withCrossSectionValue value st1) Hactive)
    as ((_ & Href & _ & Hclip & _) & Hplane & _).
  exists (length (planes st)). rewrite Hst2. auto.
Qed.

End CrossSection.

Lemma slider_sets_plane_constant_witness :
  let st1 := exampleStep (viewerWith section flatTriangle) (clickAt (Vector3.mk 0 1 0)) in
  let st2 := onValueChange 2.5 st1 in
  exists ref : PlaneRef,
    crossSectionPlaneRef st2 = Some ref /\
    (clippingPlanes ∘ material) <$> activeMeshRef st2 = Some [ref] /\
    planes st2 !! ref =
      Some {| plane_normal := Vector3.mk 0 1 0; constant := (-2.5)%float |}.
Proof.
  exact (slider_sets_plane_constant computeVertexNormals_nonIndexed hslToRgb
           exampleNumberToString (Vector3.mk 0 1 0) true None 2.5
           (viewerWith section flatTriangle) _ eq_refl eq_refl eq_refl).
Defined.

(** C7 as stated fails at the value 0: a cross-section created at the
    pick point (0,1,0) has the constant -1; the slider state is already
    0, so setting it to 0 changes no state, the effect does not run, and
    the constant stays -1 instead of becoming -0. *)
Lemma slider_zero_keeps_plane_constant :
  let st1 := exampleStep (viewerWith section flatTriangle) (clickAt (Vector3.mk 0 1 0)) in
  let st2 := onValueChange 0 st1 in
  crossSectionPlaneRef st2 = Some 0 /\
  (clippingPlanes ∘ material) <$> activeMeshRef st2 = Some [0] /\
  planes st2 !! 0 = Some {| plane_normal := Vector3.mk 0 1 0; constant := (-1)%float |} /\
  (-1)%float <> (- 0)%float.
Proof.
  repeat split. apply (float_neq _ _ (-1)%float); reflexivity.
Qed.

(** ** Scene bookkeeping *)

Lemma uuid_inj_in (c : list Object3D) (a b : Object3D) :
  NoDup (uuid <$> c) -> a ∈ c -> b ∈ c -> uuid a = uuid b -> a = b.
Proof.
  induction c as [|o c IH]; intros Hnd Ha Hb Hab; [inversion Ha|].
  rewrite fmap_cons in Hnd. apply NoDup_cons in Hnd as [Ho Hnd].
  apply elem_of_cons in Ha as [->|Ha], Hb as [->|Hb]; auto.
  - exfalso. apply Ho. rewrite Hab. now apply list_elem_of_fmap_2.
  - exfalso. apply Ho. rewrite <- Hab. now apply list_elem_of_fmap_2.
Qed.

Lemma filter_all (P : Object3D -> Prop) `{!forall a, Decision (P a)} (c : list Object3D) :
  (forall a, a ∈ c -> P a) -> filter P c = c.
Proof.
  induction c as [|a c IH]; intros Hall; [reflexivity|].
  rewrite filter_cons_True by (apply Hall; left).
  f_equal. apply IH. intros b Hb. apply Hall. now right.
Qed.

(** With unique identities, [remove] filters the object out. *)
Lemma sceneRemove_filter (o : Object3D) (c : list Object3D) :
  NoDup (uuid <$> c) ->
  sceneRemove o c = filter (fun a => uuid a <> uuid o) c.
Proof.
  induction c as [|a c IH]; intros Hnd; [reflexivity|].
  rewrite fmap_cons in Hnd. apply NoDup_cons in Hnd as [Ha Hnd]. simpl.
  destruct (decide (uuid a = uuid o)) as [Heq|Hne].
  - rewrite filter_cons_False by tauto.
    symmetry. apply filter_all. intros b Hb Hbo.
    apply Ha. rewrite Heq, <- Hbo. now apply list_elem_of_fmap_2.
  - rewrite filter_cons_True by assumption. now rewrite IH.
Qed.

Lemma NoDup_uuid_filter (P : Object3D -> Prop) `{!forall a, Decision (P a)}
    (c : list Object3D) :
  NoDup (uuid <$> c) -> NoDup (uuid <$> filter P c).
Proof.
  intros Hnd. eapply sublist_NoDup; [exact Hnd|]. apply fmap_sublist, sublist_filter.
Qed.

Lemma NoDup_uuid_snoc (c : list Object3D) (o : Object3D) (n : nat) :
  NoDup (uuid <$> c) -> (forall a, a ∈ c -> uuid a < n) -> n <= uuid o ->
  NoDup (uuid <$> (c ++ [o])).
Proof.
  intros Hnd Hfresh Ho. rewrite fmap_app. apply NoDup_app. split; [assumption|]. split.
  - intros u Hu Hu'. apply list_elem_of_fmap in Hu as (a & -> & Ha).
    apply list_elem_of_singleton in Hu'. specialize (Hfresh a Ha). simpl in Hu'. lia.
  - apply NoDup_singleton.
Qed.

Lemma filter_filter_comm (P Q : Object3D -> Prop)
    `{!forall a, Decision (P a)} `{!forall a, Decision (Q a)} (c : list Object3D) :
  filter P (filter Q c) = filter Q (filter P c).
Proof.
  rewrite !list_filter_filter. apply list_filter_iff. tauto.
Qed.

Section Invariant.

Context {c : list Object3D} {n : nat} {stored : list Object3D}.

Lemma Inv_line_in {ml : option MeasurementLine} (HInv : Inv c n stored ml) (old : MeasurementLine) :
  ml = Some old -> line old ∈ c /\ isMeasureLine (line old) = true.
Proof.
  intros ->. pose proof (inv_lines _ _ _ _ HInv) as H. simpl in H.
  assert (Hin : line old ∈ measureLinesIn c) by (rewrite H; left).
  apply list_elem_of_filter in Hin as [Hp Hin]. split; [assumption|].
  now apply Is_true_true.
Qed.

Lemma Inv_label_in {ml : option MeasurementLine} (HInv : Inv c n stored ml) (old : MeasurementLine) :
  ml = Some old -> label old ∈ c /\ isDistanceLabel (label old) = true.
Proof.
  intros ->. pose proof (inv_labels _ _ _ _ HInv) as H. simpl in H.
  assert (Hin : label old ∈ distanceLabelsIn c) by (rewrite H; left).
  apply list_elem_of_filter in Hin as [Hp Hin]. split; [assumption|].
  now apply Is_true_true.
Qed.

(** Filtering out an identity that no measurement line has. *)
Lemma Inv_lines_without {ml : option MeasurementLine} (HInv : Inv c n stored ml) (r : Object3D) :
  r ∈ c -> isMeasureLine r = false ->
  measureLinesIn (filter (fun a => uuid a <> uuid r) c) = option_list (line <$> ml).
Proof.
  intros Hr Hkind. unfold measureLinesIn.
  rewrite filter_filter_comm. fold (measureLinesIn c).
  rewrite (inv_lines _ _ _ _ HInv).
  destruct ml as [old|]; [|reflexivity]. simpl.
  destruct (Inv_line_in HInv old eq_refl) as [Hin Hline].
  rewrite filter_cons_True; [reflexivity|].
  intros Heq. apply (uuid_inj_in c) in Heq; [congruence| |assumption..].
  apply (inv_nodup _ _ _ _ HInv).
Qed.

Lemma Inv_labels_without {ml : option MeasurementLine} (HInv : Inv c n stored ml) (r : Object3D) :
  r ∈ c -> isDistanceLabel r = false ->
  distanceLabelsIn (filter (fun a => uuid a <> uuid r) c) = option_list (label <$> ml).
Proof.
  intros Hr Hkind. unfold distanceLabelsIn.
  rewrite filter_filter_comm. fold (distanceLabelsIn c).
  rewrite (inv_labels _ _ _ _ HInv).
  destruct ml as [old|]; [|reflexivity]. simpl.
  destruct (Inv_label_in HInv old eq_refl) as [Hin Hlabel].
  rewrite filter_cons_True; [reflexivity|].
  intros Heq. apply (uuid_inj_in c) in Heq; [congruence| |assumption..].
  apply (inv_nodup _ _ _ _ HInv).
Qed.

(** Removing an object that is neither a measurement line nor a label. *)
Lemma Inv_remove {ml : option MeasurementLine} (HInv : Inv c n stored ml) (r : Object3D) (stored' : list Object3D) :
  r ∈ c -> isMeasureLine r = false -> isDistanceLabel r = false ->
  NoDup stored' ->
  (forall r', r' ∈ stored' -> r' ∈ stored /\ r' <> r) ->
  Inv (sceneRemove r c) n stored' ml.
Proof.
  intros Hr Hline Hlabel Hnd' Hstored.
  pose proof (inv_nodup _ _ _ _ HInv) as Hnd.
  rewrite sceneRemove_filter by assumption. split.
  - now apply NoDup_uuid_filter.
  - intros o Ho. apply list_elem_of_filter in Ho as [_ Ho].
    now apply (inv_fresh _ _ _ _ HInv).
  - intros r' Hr'. destruct (Hstored r' Hr') as [Hin Hne].
    destruct (inv_stored _ _ _ _ HInv r' Hin) as (Hc & H1 & H2 & H3).
    repeat split; auto. apply list_elem_of_filter. split; [|assumption].
    intros Heq. apply Hne. eapply uuid_inj_in; eauto.
  - assumption.
  - now apply Inv_lines_without.
  - now apply Inv_labels_without.
Qed.

(** Adding a fresh object that is neither a measurement line nor a label. *)
Lemma Inv_add {ml : option MeasurementLine} (HInv : Inv c n stored ml) (o : Object3D) (n' : nat) (stored' : list Object3D) :
  n <= uuid o -> uuid o < n' ->
  isMeasureLine o = false -> isDistanceLabel o = false ->
  NoDup stored' ->
  (forall r', r' ∈ stored' -> r' ∈ stored \/ (r' = o /\ isModel o = false)) ->
  Inv (sceneAdd o c) n' stored' ml.
Proof.
  intros Hge Hlt Hline Hlabel Hnd' Hstored. unfold sceneAdd. split.
  - eapply NoDup_uuid_snoc;
      [apply (inv_nodup _ _ _ _ HInv)|apply (inv_fresh _ _ _ _ HInv)|assumption].
  - intros a Ha. apply elem_of_app in Ha as [Ha|Ha].
    + pose proof (inv_fresh _ _ _ _ HInv a Ha). lia.
    + apply list_elem_of_singleton in Ha as ->. assumption.
  - intros r' Hr'. destruct (Hstored r' Hr') as [Hin|[-> Hmodel]].
    + destruct (inv_stored _ _ _ _ HInv r' Hin) as (Hc & H1 & H2 & H3).
      repeat split; auto. apply elem_of_app. now left.
    + repeat split; auto. apply elem_of_app. right. now left.
  - assumption.
  - unfold measureLinesIn. rewrite filter_app. fold (measureLinesIn c).
    rewrite (inv_lines _ _ _ _ HInv), filter_cons_False, filter_nil, app_nil_r;
      [reflexivity|]. rewrite Hline. auto.
  - unfold distanceLabelsIn. rewrite filter_app. fold (distanceLabelsIn c).
    rewrite (inv_labels _ _ _ _ HInv), filter_cons_False, filter_nil, app_nil_r;
      [reflexivity|]. rewrite Hlabel. auto.
Qed.

End Invariant.

Lemma sceneRemove_subset (o a : Object3D) (c : list Object3D) :
  a ∈ sceneRemove o c -> a ∈ c.
Proof.
  induction c as [|b c IH]; simpl; [auto|].
  destruct (decide (uuid b = uuid o)).
  - intros Ha. now right.
  - intros Ha. apply elem_of_cons in Ha as [->|Ha]; [left|right; auto].
Qed.

Lemma sceneRemove_snoc_ne (o x : Object3D) (c : list Object3D) :
  uuid x <> uuid o -> sceneRemove o (c ++ [x]) = sceneRemove o c ++ [x].
Proof.
  intros Hne. induction c as [|b c IH]; simpl.
  - now destruct (decide (uuid x = uuid o)).
  - destruct (decide (uuid b = uuid o)); [reflexivity|]. now rewrite IH.
Qed.

Lemma sceneRemove_snoc_eq (o x : Object3D) (c : list Object3D) :
  (forall a, a ∈ c -> uuid a <> uuid o) -> uuid x = uuid o ->
  sceneRemove o (c ++ [x]) = c.
Proof.
  intros Hall Heq. induction c as [|b c IH]; simpl.
  - now destruct (decide (uuid x = uuid o)).
  - destruct (decide (uuid b = uuid o)) as [Hb|Hb].
    + exfalso. apply (Hall b); [left|assumption].
    + f_equal. apply IH. intros a Ha. apply Hall. now right.
Qed.

(** Removing an object leaves the objects of another kind as they are. *)
Lemma filter_sceneRemove_other (P : Object3D -> Prop) `{!forall a, Decision (P a)}
    (r : Object3D) (c : list Object3D) :
  NoDup (uuid <$> c) -> r ∈ c -> ~ P r ->
  filter P (sceneRemove r c) = filter P c.
Proof.
  intros Hnd Hr HP. rewrite sceneRemove_filter by assumption.
  rewrite filter_filter_comm. apply filter_all.
  intros a Ha Heq. apply list_elem_of_filter in Ha as [Hpa Ha].
  apply (uuid_inj_in c) in Heq; try assumption. congruence.
Qed.

Lemma NoDup_uuid_sceneRemove (o : Object3D) (c : list Object3D) :
  NoDup (uuid <$> c) -> NoDup (uuid <$> sceneRemove o c).
Proof.
  intros Hnd. rewrite sceneRemove_filter by assumption. now apply NoDup_uuid_filter.
Qed.

(** The scene without the line and the label of the measurement shown. *)
Lemma Inv_remove_measurement (c : list Object3D) (n : nat) (stored : list Object3D)
    (old : MeasurementLine) :
  Inv c n stored (Some old) ->
  Inv (sceneRemove (label old) (sceneRemove (line old) c)) n stored None.
Proof.
  intros HInv.
  pose proof (inv_nodup _ _ _ _ HInv) as Hnd.
  destruct (Inv_line_in HInv old eq_refl) as [Hline Hkl].
  destruct (Inv_label_in HInv old eq_refl) as [Hlabel Hkb].
  assert (Hnd' : NoDup (uuid <$> sceneRemove (line old) c))
    by now apply NoDup_uuid_sceneRemove.
  rewrite (sceneRemove_filter (label old)) by assumption.
  rewrite (sceneRemove_filter (line old)) by assumption.
  rewrite list_filter_filter.
  split.
  - now apply NoDup_uuid_filter.
  - intros o Ho. apply list_elem_of_filter in Ho as [_ Ho].
    now apply (inv_fresh _ _ _ _ HInv).
  - intros r Hr. destruct (inv_stored _ _ _ _ HInv r Hr) as (Hc & H1 & H2 & H3).
    repeat split; auto. apply list_elem_of_filter. split; [|assumption].
    split; intros Heq; apply (uuid_inj_in c) in Heq; try assumption; congruence.
  - apply (inv_stored_nodup _ _ _ _ HInv).
  - unfold measureLinesIn. rewrite filter_filter_comm. fold (measureLinesIn c).
    rewrite (inv_lines _ _ _ _ HInv). simpl.
    rewrite filter_cons_False; [reflexivity|]. tauto.
  - unfold distanceLabelsIn. rewrite filter_filter_comm. fold (distanceLabelsIn c).
    rewrite (inv_labels _ _ _ _ HInv). simpl.
    rewrite filter_cons_False; [reflexivity|]. tauto.
Qed.

(** Showing a new measurement in a scene that shows none. *)
Lemma Inv_add_measurement (c : list Object3D) (n n' : nat) (stored : list Object3D)
    (l lab : Object3D) :
  Inv c n stored None ->
  n <= uuid l -> uuid l < uuid lab -> uuid lab < n' ->
  isMeasureLine l = true -> isDistanceLabel l = false ->
  isMeasureLine lab = false -> isDistanceLabel lab = true ->
  Inv (sceneAdd lab (sceneAdd l c)) n' stored (Some {| line := l; label := lab |}).
Proof.
  intros HInv H1 H2 H3 Hl1 Hl2 Hb1 Hb2. unfold sceneAdd.
  assert (Hnd : NoDup (uuid <$> (c ++ [l]))).
  { eapply NoDup_uuid_snoc;
      [apply (inv_nodup _ _ _ _ HInv)|apply (inv_fresh _ _ _ _ HInv)|assumption]. }
  assert (Hfresh : forall a, a ∈ c ++ [l] -> uuid a < uuid lab).
  { intros a Ha. apply elem_of_app in Ha as [Ha|Ha].
    - pose proof (inv_fresh _ _ _ _ HInv a Ha). lia.
    - apply list_elem_of_singleton in Ha as ->. assumption. }
  split.
  - eapply NoDup_uuid_snoc; [exact Hnd|exact Hfresh|lia].
  - intros a Ha. apply elem_of_app in Ha as [Ha|Ha].
    + specialize (Hfresh a Ha). lia.
    + apply list_elem_of_singleton in Ha as ->. assumption.
  - intros r Hr. destruct (inv_stored _ _ _ _ HInv r Hr) as (Hc & Hr1 & Hr2 & Hr3).
    repeat split; auto. rewrite !elem_of_app. auto.
  - apply (inv_stored_nodup _ _ _ _ HInv).
  - unfold measureLinesIn. rewrite !filter_app. fold (measureLinesIn c).
    rewrite (inv_lines _ _ _ _ HInv). simpl.
    rewrite filter_cons_True, filter_cons_False, !filter_nil;
      [reflexivity|rewrite Hb1; auto|rewrite Hl1; exact I].
  - unfold distanceLabelsIn. rewrite !filter_app. fold (distanceLabelsIn c).
    rewrite (inv_labels _ _ _ _ HInv). simpl.
    rewrite filter_cons_False, filter_cons_True, !filter_nil;
      [reflexivity|rewrite Hb2; exact I|rewrite Hl2; auto].
Qed.

Lemma Inv_clearModels (visits : nat) :
  forall (k : nat) (c : list Object3D) (n : nat) (stored : list Object3D)
         (ml : option MeasurementLine),
    Inv c n stored ml -> Inv (clearModels visits k c) n stored ml.
Proof.
  induction visits as [|visits IH]; intros k c n stored ml HInv; simpl; [assumption|].
  destruct (c !! k) as [child|] eqn:Hk; [|now apply IH].
  destruct (instanceofMesh child && negb (isPoint child)) eqn:Hmodel; [|now apply IH].
  apply IH. apply (Inv_remove HInv).
  - eapply list_elem_of_lookup_2; eassumption.
  - unfold instanceofMesh, isPoint, isMeasureLine in *. now destruct (kind child).
  - unfold instanceofMesh, isPoint, isDistanceLabel in *. now destruct (kind child).
  - apply (inv_stored_nodup _ _ _ _ HInv).
  - intros r Hr. split; [assumption|]. intros ->.
    destruct (inv_stored _ _ _ _ HInv child Hr) as (_ & _ & _ & Hm).
    unfold isModel in Hm. congruence.
Qed.

(** The load handler removes models only. *)
Lemma filter_clearModels (P : Object3D -> Prop) `{!forall a, Decision (P a)}
    (visits : nat) :
  (forall a, P a -> isModel a = false) ->
  forall (k : nat) (c : list Object3D),
    NoDup (uuid <$> c) -> filter P (clearModels visits k c) = filter P c.
Proof.
  intros HP. induction visits as [|visits IH]; intros k c Hnd; simpl; [reflexivity|].
  destruct (c !! k) as [child|] eqn:Hk; [|now apply IH].
  destruct (instanceofMesh child && negb (isPoint child)) eqn:Hmodel; [|now apply IH].
  rewrite IH by now apply NoDup_uuid_sceneRemove.
  apply filter_sceneRemove_other; [assumption| |].
  - eapply list_elem_of_lookup_2; eassumption.
  - intros Hc. apply HP in Hc. unfold isModel in Hc. congruence.
Qed.

(** ** The invariant holds in every state the component reaches *)

Lemma invariant_sameScene (st st' : Viewer) :
  sameScene st st' -> invariant st -> invariant st'.
Proof.
  intros (H1 & H2 & H3 & H4 & H5 & H6). unfold invariant, storedObjects.
  now rewrite H1, H2, H3, H4, H5, H6.
Qed.

Lemma invariant_mounted (m : Mode) : invariant (mounted m).
Proof.
  split; simpl.
  - apply NoDup_cons. split; [|apply NoDup_singleton].
    intros H. apply list_elem_of_singleton in H. discriminate.
  - intros o Ho. apply elem_of_cons in Ho as [->|Ho]; [simpl; lia|].
    apply list_elem_of_singleton in Ho as ->. simpl. lia.
  - intros r Hr. inversion Hr.
  - apply NoDup_nil_2.
  - reflexivity.
  - reflexivity.
Qed.

Section Reachable.

Variable computeVertexNormals : BufferAttribute -> BufferAttribute.
Variable setHSL : float -> float -> float -> Color.
Variable boundingBoxCenter : BufferAttribute -> Vector3.
Variable numberToString : float -> string.

Lemma sameScene_applyDeformation (point : Vector3) (radius strength : float) (st : Viewer) :
  sameScene st (applyDeformation computeVertexNormals point radius strength st).
Proof.
  unfold applyDeformation, sameScene. now destruct (activeMeshRef st).
Qed.

Lemma sameScene_performOcclusalAnalysis (point : Vector3) (st : Viewer) :
  sameScene st (performOcclusalAnalysis setHSL point st).
Proof.
  unfold performOcclusalAnalysis, sameScene. now destruct (activeMeshRef st).
Qed.

Lemma sameScene_crossSectionEffect (st : Viewer) : sameScene st (crossSectionEffect st).
Proof.
  unfold crossSectionEffect, sameScene.
  destruct (mode st), (crossSectionPlaneRef st), (planeHelperRef st) eqn:E;
    repeat split; simpl; auto.
Qed.

Lemma sameScene_setCrossSectionValue (value : float) (st : Viewer) :
  sameScene st (setCrossSectionValue value st).
Proof.
  unfold setCrossSectionValue. destruct (JS.sameValue _ _); [now repeat split|].
  apply (sameScene_crossSectionEffect (withCrossSectionValue value st)).
Qed.

Lemma sameScene_changeMode (m : Mode) (st : Viewer) : sameScene st (changeMode m st).
Proof.
  unfold changeMode. destruct (decide _); [now repeat split|].
  apply (sameScene_crossSectionEffect (withMode m st)).
Qed.

Lemma sameScene_onValueChange (value : float) (st : Viewer) :
  sameScene st (onValueChange value st).
Proof.
  unfold onValueChange.
  destruct (mode st), (planeHelperRef st) eqn:E; try (repeat split; reflexivity).
  apply sameScene_setCrossSectionValue.
Qed.

Lemma NoDup_remove_middle (A C : list Object3D) (b : Object3D) :
  NoDup (A ++ b :: C) -> NoDup (A ++ C) /\ b ∉ A ++ C.
Proof.
  intros H. apply NoDup_app in H as (HA & HAC & HC).
  apply NoDup_cons in HC as [Hb HC]. split.
  - apply NoDup_app. repeat split; auto.
    intros a Ha Hc. apply (HAC a Ha). now right.
  - intros Hin. apply elem_of_app in Hin as [Hin|Hin]; [|contradiction].
    apply (HAC b Hin). now left.
Qed.

Lemma NoDup_insert_middle (A C : list Object3D) (b : Object3D) :
  NoDup (A ++ C) -> b ∉ A ++ C -> NoDup (A ++ b :: C).
Proof.
  intros H Hb. apply NoDup_app in H as (HA & HAC & HC).
  apply NoDup_app. repeat split; auto.
  - intros a Ha Hc. apply elem_of_cons in Hc as [->|Hc].
    + apply Hb, elem_of_app. now left.
    + now apply (HAC a Ha).
  - apply NoDup_cons. split; [|assumption].
    intros Hin. apply Hb, elem_of_app. now right.
Qed.

(** An object with a fresh identity is none of the stored ones. *)
Lemma Inv_fresh_not_stored (c : list Object3D) (n : nat) (stored : list Object3D)
    (ml : option MeasurementLine) (o : Object3D) :
  Inv c n stored ml -> n <= uuid o -> o ∉ stored.
Proof.
  intros HInv Ho Hin. destruct (inv_stored _ _ _ _ HInv o Hin) as (Hc & _).
  pose proof (inv_fresh _ _ _ _ HInv o Hc). lia.
Qed.

(** Replacing the stored object in the middle of the list of stored
    objects, if there is one, by a fresh object. *)
Lemma Inv_replace_stored (c : list Object3D) (n : nat) (A C : list Object3D)
    (old : option Object3D) (ml : option MeasurementLine) (o : Object3D) :
  Inv c n (A ++ option_list old ++ C) ml ->
  uuid o = n ->
  isMeasureLine o = false -> isDistanceLabel o = false -> isModel o = false ->
  Inv (sceneAdd o (match old with Some r => sceneRemove r c | None => c end))
      (S n) (A ++ [o] ++ C) ml.
Proof.
  intros HInv Hu Hl Hb Hm.
  assert (Hfresh : o ∉ A ++ option_list old ++ C).
  { apply (Inv_fresh_not_stored c n _ ml); [assumption|lia]. }
  assert (HInv' : Inv (match old with Some r => sceneRemove r c | None => c end)
                      n (A ++ C) ml).
  { destruct old as [r|]; simpl in *; [|assumption].
    destruct (NoDup_remove_middle A C r (inv_stored_nodup _ _ _ _ HInv)) as [Hnd Hr].
    destruct (inv_stored _ _ _ _ HInv r) as (Hc & H1 & H2 & H3).
    { apply elem_of_app. right. left. }
    apply (Inv_remove HInv); auto.
    intros r' Hr'. split.
    - apply elem_of_app in Hr' as [Hr'|Hr']; apply elem_of_app; [now left|].
      right. now right.
    - intros ->. contradiction. }
  assert (Hfresh' : o ∉ A ++ C).
  { intros Hin. apply Hfresh. apply elem_of_app in Hin as [Hin|Hin];
      rewrite !elem_of_app; auto. }
  apply (Inv_add HInv'); auto; try lia.
  - apply NoDup_insert_middle; [|assumption]. apply (inv_stored_nodup _ _ _ _ HInv').
  - intros r' Hr'. simpl in Hr'. apply elem_of_app in Hr' as [Hr'|Hr'].
    + left. apply elem_of_app. now left.
    + apply elem_of_cons in Hr' as [->|Hr']; [now right|].
      left. apply elem_of_app. now right.
Qed.

Lemma invariant_createMarginLine (points : list Vector3) (st : Viewer) :
  invariant st -> invariant (createMarginLine points st).
Proof.
  intros HInv. unfold createMarginLine. destruct (decide _); [assumption|].
  unfold invariant, storedObjects in *. simpl.
  apply (Inv_replace_stored (children st) (nextUuid st)
           (option_list (marker <$> measureStartPoint st))
           (option_list (planeHelperRef st))
           (margin_line <$> marginLine st) (measureLine st)
           {| uuid := nextUuid st; kind := MarginLineObject points |}) in HInv;
    try reflexivity.
  now destruct (marginLine st).
Qed.

Lemma invariant_createCrossSection (point normal : Vector3) (st : Viewer) :
  invariant st -> invariant (createCrossSection point normal st).
Proof.
  intros HInv. unfold createCrossSection. destruct (activeMeshRef st); [|assumption].
  unfold invariant, storedObjects in *. simpl.
  rewrite app_assoc in HInv. rewrite <- (app_nil_r (option_list (planeHelperRef st))) in HInv.
  apply (Inv_replace_stored (children st) (nextUuid st) _ [] (planeHelperRef st)
           (measureLine st)
           {| uuid := nextUuid st; kind := PlaneHelper (length (planes st)) |}) in HInv;
    try reflexivity.
  now rewrite <- app_assoc in HInv.
Qed.

(** Adding a fresh object the state does not keep a reference to. *)
Lemma invariant_add (o : Object3D) (st st' : Viewer) :
  invariant st ->
  uuid o = nextUuid st ->
  isMeasureLine o = false -> isDistanceLabel o = false ->
  children st' = sceneAdd o (children st) ->
  nextUuid st' = S (nextUuid st) ->
  measureStartPoint st' = measureStartPoint st ->
  measureLine st' = measureLine st ->
  marginLine st' = marginLine st ->
  planeHelperRef st' = planeHelperRef st ->
  invariant st'.
Proof.
  intros HInv Hu Hl Hb H1 H2 H3 H4 H5 H6. unfold invariant, storedObjects.
  rewrite H1, H2, H3, H4, H5, H6. apply (Inv_add HInv); auto; try lia.
  apply (inv_stored_nodup _ _ _ _ HInv).
Qed.

Lemma invariant_onload (result : ParseResult) (st : Viewer) :
  invariant st -> invariant (onload boundingBoxCenter result st).
Proof.
  intros HInv. destruct result as [| |decoded]; simpl; try assumption.
  apply (invariant_add {| uuid := nextUuid st; kind := Model |}
           (withChildren (clearModels (length (children st)) 0 (children st)) st));
    try reflexivity.
  now apply Inv_clearModels.
Qed.

Lemma withoutMeasurement_snoc (ml : option MeasurementLine) (c : list Object3D)
    (n : nat) (stored : list Object3D) (o : Object3D) :
  Inv c n stored ml -> n <= uuid o ->
  withoutMeasurement ml (c ++ [o]) = withoutMeasurement ml c ++ [o].
Proof.
  intros HInv Ho. destruct ml as [old|]; [|reflexivity]. simpl.
  destruct (Inv_line_in HInv old eq_refl) as [Hline _].
  destruct (Inv_label_in HInv old eq_refl) as [Hlabel _].
  pose proof (inv_fresh _ _ _ _ HInv _ Hline).
  pose proof (inv_fresh _ _ _ _ HInv _ Hlabel).
  rewrite !sceneRemove_snoc_ne by lia. reflexivity.
Qed.

Lemma Inv_withoutMeasurement (ml : option MeasurementLine) (c : list Object3D)
    (n : nat) (stored : list Object3D) :
  Inv c n stored ml -> Inv (withoutMeasurement ml c) n stored None.
Proof.
  intros HInv. destruct ml as [old|]; [|assumption].
  now apply Inv_remove_measurement.
Qed.

Lemma filter_withoutMeasurement (P : Object3D -> Prop) `{!forall a, Decision (P a)}
    (ml : option MeasurementLine) (c : list Object3D) (n : nat) (stored : list Object3D) :
  Inv c n stored ml ->
  (forall a, P a -> isMeasureLine a = false /\ isDistanceLabel a = false) ->
  filter P (withoutMeasurement ml c) = filter P c.
Proof.
  intros HInv HP. destruct ml as [old|]; [|reflexivity]. simpl.
  destruct (Inv_line_in HInv old eq_refl) as [Hline Hkl].
  destruct (Inv_label_in HInv old eq_refl) as [Hlabel Hkb].
  pose proof (inv_nodup _ _ _ _ HInv) as Hnd.
  assert (Hne : uuid (label old) <> uuid (line old)).
  { intros Heq. apply (uuid_inj_in c) in Heq; try assumption.
    rewrite Heq in Hkb. unfold isMeasureLine, isDistanceLabel in *.
    destruct (kind (line old)); discriminate. }
  rewrite filter_sceneRemove_other.
  - apply filter_sceneRemove_other; try assumption.
    intros Hp. apply HP in Hp. destruct Hp. congruence.
  - now apply NoDup_uuid_sceneRemove.
  - rewrite sceneRemove_filter by assumption. apply list_elem_of_filter. now split.
  - intros Hp. apply HP in Hp. destruct Hp. congruence.
Qed.

Lemma invariant_marker (st : Viewer) (start : Point) :
  invariant st -> measureStartPoint st = Some start ->
  marker start ∈ children st /\ uuid (marker start) < nextUuid st /\
  isMeasureLine (marker start) = false /\ isDistanceLabel (marker start) = false.
Proof.
  intros HInv Hsp.
  destruct (inv_stored _ _ _ _ HInv (marker start)) as (Hc & H1 & H2 & _).
  { unfold storedObjects. rewrite Hsp. simpl. left. }
  repeat split; auto. now apply (inv_fresh _ _ _ _ HInv).
Qed.

(** The scene after the second click of a measurement. *)
Lemma recordPoint_armed_children (context : bool) (point : Vector3) (st : Viewer)
    (start : Point) :
  invariant st -> measureStartPoint st = Some start ->
  children (recordPoint numberToString context point st) =
  sceneAdd
    {| uuid := S (S (nextUuid st));
       kind := DistanceLabel
                 (createDistanceLabel numberToString context
                    (Vector3.distanceTo (point_position start) point)
                    (Vector3.multiplyScalar
                       (Vector3.addVectors (point_position start) point) 0.5)) |}
    (sceneAdd
       {| uuid := S (nextUuid st);
          kind := MeasureLineObject [point_position start; point] |}
       (sceneRemove (marker start)
          (withoutMeasurement (measureLine st) (children st)))).
Proof.
  intros HInv Hsp. unfold recordPoint. rewrite Hsp. simpl.
  destruct (invariant_marker st start HInv Hsp) as (Hin & Hlt & _).
  fold (withoutMeasurement (measureLine st) (sceneAdd (newMarker point st) (children st))).
  unfold sceneAdd.
  rewrite (withoutMeasurement_snoc _ _ _ _ _ HInv) by (simpl; lia).
  rewrite !(sceneRemove_snoc_ne (marker start)) by (simpl; lia).
  rewrite !(sceneRemove_snoc_ne (newMarker point st)) by (simpl; lia).
  rewrite sceneRemove_snoc_eq; [reflexivity| |reflexivity].
  intros a Ha. apply sceneRemove_subset in Ha.
  pose proof (inv_fresh _ _ _ _ (Inv_withoutMeasurement _ _ _ _ HInv) a Ha).
  simpl. lia.
Qed.

Lemma invariant_recordPoint (context : bool) (point : Vector3) (st : Viewer) :
  invariant st -> invariant (recordPoint numberToString context point st).
Proof.
  intros HInv. destruct (measureStartPoint st) as [start|] eqn:Hsp.
  - unfold invariant. rewrite (recordPoint_armed_children context point st start HInv Hsp).
    destruct (invariant_marker st start HInv Hsp) as (Hin & Hlt & Hl & Hb).
    unfold recordPoint. rewrite Hsp. simpl.
    apply (Inv_add_measurement _ (nextUuid st)); simpl; auto; try lia.
    pose proof (Inv_withoutMeasurement _ _ _ _ HInv) as HInv0.
    unfold storedObjects in HInv0 |- *. rewrite Hsp in HInv0. simpl in *.
    pose proof (inv_stored_nodup _ _ _ _ HInv0) as Hnd.
    apply NoDup_cons in Hnd as [Hnotin Hnd].
    destruct (inv_stored _ _ _ _ HInv0 (marker start)) as (Hc & _); [left|].
    apply (Inv_remove HInv0); auto.
    intros r Hr. split; [now right|]. intros ->. contradiction.
  - unfold recordPoint. rewrite Hsp. unfold invariant, storedObjects in *. simpl.
    rewrite Hsp in HInv. simpl in HInv.
    apply (Inv_replace_stored (children st) (nextUuid st) [] _ None (measureLine st)
             (newMarker point st)) in HInv; auto.
Qed.

Lemma invariant_handleClick (hit : option Vector3) (context : bool)
    (promptText : option string) (st : Viewer) :
  invariant st ->
  invariant (handleClick computeVertexNormals setHSL numberToString hit context promptText st).
Proof.
  intros HInv. unfold handleClick. destruct hit as [point|]; [|assumption].
  destruct (mode st).
  - assumption.
  - apply (invariant_add (newMarker point st) st); try reflexivity. exact HInv.
  - now apply invariant_recordPoint.
  - eapply invariant_sameScene; [apply sameScene_applyDeformation|assumption].
  - eapply invariant_sameScene; [apply sameScene_applyDeformation|assumption].
  - eapply invariant_sameScene; [apply sameScene_applyDeformation|assumption].
  - apply invariant_createMarginLine. exact HInv.
  - eapply invariant_sameScene with (st := performOcclusalAnalysis setHSL point st).
    + now repeat split.
    + eapply invariant_sameScene; [apply sameScene_performOcclusalAnalysis|assumption].
  - eapply invariant_sameScene
      with (st := setCrossSectionValue 0 (createCrossSection point (Vector3.mk 0 1 0) st)).
    + now repeat split.
    + eapply invariant_sameScene; [apply sameScene_setCrossSectionValue|].
      now apply invariant_createCrossSection.
  - destruct promptText as [noteText|]; [|assumption].
    destruct (String.eqb noteText EmptyString); [assumption|].
    apply (invariant_add
             {| uuid := nextUuid st;
                kind := NoteLabel (createNoteLabel context noteText point) |} st);
      try reflexivity.
    exact HInv.
Qed.

Lemma invariant_step (st : Viewer) (e : Event) :
  invariant st ->
  invariant (step computeVertexNormals setHSL boundingBoxCenter numberToString st e).
Proof.
  intros HInv. destruct e as [hit context promptText|m|value|result]; simpl.
  - now apply invariant_handleClick.
  - eapply invariant_sameScene; [apply sameScene_changeMode|assumption].
  - eapply invariant_sameScene; [apply sameScene_onValueChange|assumption].
  - now apply invariant_onload.
Qed.

Lemma reachable_invariant (st : Viewer) :
  reachable computeVertexNormals setHSL boundingBoxCenter numberToString st ->
  invariant st.
Proof.
  induction 1 as [|st e _ IH]; [apply invariant_mounted|now apply invariant_step].
Qed.

End Reachable.

(** ** The measurement tool *)

Section Measurement.

Variable computeVertexNormals : BufferAttribute -> BufferAttribute.
Variable setHSL : float -> float -> float -> Color.
Variable boundingBoxCenter : BufferAttribute -> Vector3.
Variable numberToString : float -> string.

#[local] Abbreviation click := (handleClick computeVertexNormals setHSL numberToString).

Lemma click_measure (point : Vector3) (context : bool) (promptText : option string)
    (st : Viewer) :
  mode st = measure ->
  click (Some point) context promptText st = recordPoint numberToString context point st.
Proof. intros Hmode. unfold click, handleClick. now rewrite Hmode. Qed.

Lemma option_list_length_le_1 (o : option Object3D) : length (option_list o) <= 1.
Proof. destruct o; simpl; lia. Qed.

(** C6 (as the code has it): in every state the component reaches at
    most one measurement line and at most one distance label are in the
    scene.  In the measure mode with no start point stored, a click stores
    the picked point with one new marker added to the scene, and the next
    click clears the stored point, removes the line and label of the
    previous measurement and the two markers, and adds one line from the
    first point to the second and one label.  When the canvas gives a 2D
    context the label is at their midpoint and its text is the distance
    with two decimals followed by [units]; when it gives none, the label
    is a bare sprite, without text, at the origin. *)
Theorem measurement_state_machine (st : Viewer) :
  reachable computeVertexNormals setHSL boundingBoxCenter numberToString st ->
  (length (measureLinesIn (children st)) <= 1 /\
   length (distanceLabelsIn (children st)) <= 1) /\
  (mode st = measure -> measureStartPoint st = None ->
   forall (p0 p1 : Vector3) (context0 context1 : bool) (prompt0 prompt1 : option string),
     let st1 := click (Some p0) context0 prompt0 st in
     let st2 := click (Some p1) context1 prompt1 st1 in
     let m := {| uuid := nextUuid st; kind := Marker p0 |} in
     let distance := Vector3.distanceTo p0 p1 in
     let midPoint := Vector3.multiplyScalar (Vector3.addVectors p0 p1) 0.5 in
     let l := {| uuid := S (S (nextUuid st)); kind := MeasureLineObject [p0; p1] |} in
     let lab := {| uuid := S (S (S (nextUuid st)));
                   kind := DistanceLabel
                             (createDistanceLabel numberToString context1 distance midPoint) |} in
     (measureStartPoint st1 = Some {| point_position := p0; marker := m |} /\
      children st1 = children st ++ [m] /\
      measureLine st1 = measureLine st) /\
     (measureStartPoint st2 = None /\
      measureLine st2 = Some {| line := l; label := lab |} /\
      children st2 = withoutMeasurement (measureLine st) (children st) ++ [l; lab] /\
      measureLinesIn (children st2) = [l] /\
      distanceLabelsIn (children st2) = [lab] /\
      markersIn (children st2) = markersIn (children st) /\
      kind lab =
      DistanceLabel
        (if context1
         then {| sprite_map := Some (JS.toFixed2 numberToString distance ++ " units")%string;
                 sprite_position := midPoint;
                 sprite_scale := Vector3.mk 0.5 0.25 1 |}
         else {| sprite_map := None;
                 sprite_position := Vector3.mk 0 0 0;
                 sprite_scale := Vector3.mk 1 1 1 |}))).
Proof.
  intros Hreach.
  pose proof (reachable_invariant _ _ _ _ st Hreach) as HInv.
  split.
  - rewrite (inv_lines _ _ _ _ HInv), (inv_labels _ _ _ _ HInv).
    split; apply option_list_length_le_1.
  - intros Hmode Hsp p0 p1 context0 context1 prompt0 prompt1 st1 st2 m distance midPoint l lab.
    assert (Hst1 : st1 = recordPoint numberToString context0 p0 st)
      by now apply click_measure.
    assert (Hsp1 : measureStartPoint st1 = Some {| point_position := p0; marker := m |}).
    { rewrite Hst1. unfold recordPoint. now rewrite Hsp. }
    assert (Hc1 : children st1 = children st ++ [m]).
    { rewrite Hst1. unfold recordPoint. now rewrite Hsp. }
    assert (Hml1 : measureLine st1 = measureLine st).
    { rewrite Hst1. unfold recordPoint. now rewrite Hsp. }
    assert (Hn1 : nextUuid st1 = S (nextUuid st)).
    { rewrite Hst1. unfold recordPoint. now rewrite Hsp. }
    assert (Hmode1 : mode st1 = measure).
    { rewrite Hst1. unfold recordPoint. now rewrite Hsp. }
    assert (HInv1 : invariant st1).
    { rewrite Hst1. now apply invariant_recordPoint. }
    assert (Hst2 : st2 = recordPoint numberToString context1 p1 st1)
      by now apply click_measure.
    assert (HInv2 : invariant st2).
    { rewrite Hst2. now apply invariant_recordPoint. }
    assert (Hsp2 : measureStartPoint st2 = None).
    { rewrite Hst2. unfold recordPoint. now rewrite Hsp1. }
    assert (Hml2 : measureLine st2 = Some {| line := l; label := lab |}).
    { rewrite Hst2. unfold recordPoint. rewrite Hsp1. simpl. now rewrite Hn1. }
    assert (Hc2 : children st2 =
                  withoutMeasurement (measureLine st) (children st) ++ [l; lab]).
    { rewrite Hst2, (recordPoint_armed_children numberToString context1 p1 st1 _ HInv1 Hsp1).
      rewrite Hml1, Hc1, Hn1. simpl.
      rewrite (withoutMeasurement_snoc _ _ _ _ _ HInv) by (simpl; lia).
      rewrite sceneRemove_snoc_eq; [|intros a Ha|reflexivity].
      - unfold sceneAdd. now rewrite <- app_assoc.
      - pose proof (inv_fresh _ _ _ _ (Inv_withoutMeasurement _ _ _ _ HInv) a Ha).
        simpl. lia. }
    split; [auto|].
    split; [assumption|]. split; [assumption|]. split; [assumption|].
    split; [|split; [|split]].
    + rewrite (inv_lines _ _ _ _ HInv2), Hml2. reflexivity.
    + rewrite (inv_labels _ _ _ _ HInv2), Hml2. reflexivity.
    + rewrite Hc2. unfold markersIn. rewrite filter_app.
      rewrite (filter_withoutMeasurement _ _ _ _ _ HInv).
      * rewrite filter_cons_False, filter_cons_False, filter_nil, app_nil_r; auto.
      * intros a Ha. unfold isPoint, isMeasureLine, isDistanceLabel in *.
        destruct (kind a); try contradiction; auto.
    + subst lab. simpl. now destruct context1.
Qed.

End Measurement.

Lemma session_reachable (events : list Event) :
  reachable computeVertexNormals_nonIndexed hslToRgb (fun _ => Vector3.zero)
    exampleNumberToString (session events).
Proof.
  unfold session.
  generalize (FileLoaded (Parsed flatTriangle) :: events). intros es.
  induction es as [|e es IH] using rev_ind; [apply reachable_mounted|].
  rewrite foldl_app. simpl. now apply reachable_step.
Defined.

(** The end-to-end example: two clicks at (0,0,0) and (3,0,0) leave one
    line and one label reading 3.00 units, and no marker. *)
Lemma measurement_state_machine_witness :
  let st := session [ModeChange measure] in
  let st2 := exampleStep (exampleStep st (clickAt (Vector3.mk 0 0 0))) (clickAt (Vector3.mk 3 0 0)) in
  measureStartPoint st2 = None /\
  distanceLabelsIn (children st2) =
    [ {| uuid := 6;
         kind := DistanceLabel
                   {| sprite_map := Some "3.00 units"%string;
                      sprite_position := Vector3.mk 1.5 0 0;
                      sprite_scale := Vector3.mk 0.5 0.25 1 |} |} ] /\
  length (measureLinesIn (children st2)) = 1 /\
  markersIn (children st2) = [].
Proof.
  intros st st2.
  destruct (measurement_state_machine computeVertexNormals_nonIndexed hslToRgb
              (fun _ => Vector3.zero) exampleNumberToString st
              (session_reachable [ModeChange measure])) as [_ H].
  destruct (H eq_refl eq_refl (Vector3.mk 0 0 0) (Vector3.mk 3 0 0) true true None None)
    as (_ & Hsp & _ & _ & Hlines & Hlabels & Hmarkers & _).
  split; [exact Hsp|]. split; [exact Hlabels|]. split.
  - exact (f_equal length Hlines).
  - exact Hmarkers.
Defined.

(** C6 as stated fails when the canvas gives no 2D context: after the
    clicks at (0,0,0) and (3,0,0), the second of them without a context,
    the one distance label of the scene is a bare sprite: it shows no
    text, so not the distance 3.00 with its suffix, and it sits at the
    origin, not at the midpoint (1.5,0,0). *)
Lemma measurement_label_without_context :
  let p0 := Vector3.mk 0 0 0 in
  let p1 := Vector3.mk 3 0 0 in
  let st := session [ModeChange measure] in
  let st2 := exampleStep (exampleStep st (clickAt p0)) (Click (Some p1) false None) in
  mode st = measure /\ measureStartPoint st = None /\
  Vector3.multiplyScalar (Vector3.addVectors p0 p1) 0.5 = Vector3.mk 1.5 0 0 /\
  JS.toFixed2 exampleNumberToString (Vector3.distanceTo p0 p1) = "3.00"%string /\
  distanceLabelsIn (children st2) =
    [ {| uuid := 6;
         kind := DistanceLabel
                   {| sprite_map := None;
                      sprite_position := Vector3.mk 0 0 0;
                      sprite_scale := Vector3.mk 1 1 1 |} |} ] /\
  ~ (exists (lab : Object3D) (sprite : Sprite),
       lab ∈ children st2 /\ kind lab = DistanceLabel sprite /\
       (sprite_map sprite = Some "3.00 units"%string \/
        sprite_position sprite = Vector3.mk 1.5 0 0)).
Proof.
  intros p0 p1 st st2. repeat (split; [reflexivity|]).
  intros (lab & sprite & Hin & Hkind & H).
  assert (Hlab : lab ∈ distanceLabelsIn (children st2)).
  { apply list_elem_of_filter. split; [|assumption].
    unfold isDistanceLabel. now rewrite Hkind. }
  vm_compute in Hlab. apply list_elem_of_singleton in Hlab. subst lab.
  injection Hkind as <-. destruct H as [H|H]; [discriminate|].
  apply (f_equal Vector3.x) in H. simpl in H.
  revert H. now apply (float_neq _ _ 0%float).
Qed.

(** ** What the state says about itself *)

Lemma Coherent_mounted (m : Mode) : Coherent (mounted m).
Proof.
  split; simpl; auto; try discriminate.
  - intros plane Hin. inversion Hin.
  - intros nt Hin. inversion Hin.
Qed.

Lemma elem_of_alter_plane (f : Plane -> Plane) (ref : nat) (l : list Plane) (plane : Plane) :
  plane ∈ alter f ref l -> plane ∈ l \/ exists old, old ∈ l /\ plane = f old.
Proof.
  intros Hin. apply list_elem_of_lookup in Hin as [j Hj].
  destruct (decide (ref = j)) as [->|Hne].
  - rewrite list_lookup_alter_eq in Hj.
    destruct (l !! j) as [old|] eqn:Hold; [|discriminate].
    simpl in Hj. injection Hj as <-. right. exists old. split; [|reflexivity].
    eapply list_elem_of_lookup_2; eassumption.
  - rewrite list_lookup_alter_ne in Hj by assumption.
    left. eapply list_elem_of_lookup_2; eassumption.
Qed.

Section CoherentSteps.

Variable computeVertexNormals : BufferAttribute -> BufferAttribute.
Variable setHSL : float -> float -> float -> Color.
Variable boundingBoxCenter : BufferAttribute -> Vector3.
Variable numberToString : float -> string.

Lemma Coherent_applyDeformation (point : Vector3) (radius strength : float) (st : Viewer) :
  Coherent st -> Coherent (applyDeformation computeVertexNormals point radius strength st).
Proof.
  intros HC. unfold applyDeformation.
  destruct (activeMeshRef st) as [mesh|] eqn:E; [|assumption].
  destruct HC as [H1 H2 H3 H4 H5 H6].
  split; simpl; auto. intros mesh' [= <-]. simpl. now apply H4.
Qed.

Lemma Coherent_performOcclusalAnalysis (point : Vector3) (st : Viewer) :
  Coherent st -> Coherent (performOcclusalAnalysis setHSL point st).
Proof.
  intros HC. unfold performOcclusalAnalysis.
  destruct (activeMeshRef st) as [mesh|] eqn:E; [|assumption].
  destruct HC as [H1 H2 H3 H4 H5 H6].
  split; simpl; auto. intros mesh' [= <-]. simpl. now apply H4.
Qed.

Lemma Coherent_toast (t d : string) (st : Viewer) : Coherent st -> Coherent (toast t d st).
Proof. intros [H1 H2 H3 H4 H5 H6]. now split. Qed.

Lemma Coherent_crossSectionEffect (st : Viewer) :
  Coherent st -> Coherent (crossSectionEffect st).
Proof.
  intros HC. unfold crossSectionEffect.
  destruct (mode st); try assumption.
  destruct (crossSectionPlaneRef st) as [ref|] eqn:Href; [|assumption].
  destruct (planeHelperRef st) as [helper|] eqn:Hhelper; [|assumption].
  destruct HC as [H1 H2 H3 H4 H5 H6]. split; simpl; auto.
  - rewrite Href, Hhelper in *. now rewrite length_alter.
  - intros plane Hin. apply elem_of_alter_plane in Hin as [Hin|(old & Hin & ->)]; auto.
    simpl. auto.
Qed.

Lemma Coherent_withCrossSectionValue (value : float) (st : Viewer) :
  Coherent st -> Coherent (withCrossSectionValue value st).
Proof. intros [H1 H2 H3 H4 H5 H6]. now split. Qed.

Lemma Coherent_withMode (m : Mode) (st : Viewer) : Coherent st -> Coherent (withMode m st).
Proof. intros [H1 H2 H3 H4 H5 H6]. now split. Qed.

Lemma Coherent_setCrossSectionValue (value : float) (st : Viewer) :
  Coherent st -> Coherent (setCrossSectionValue value st).
Proof.
  intros HC. unfold setCrossSectionValue. destruct (JS.sameValue _ _); [assumption|].
  now apply Coherent_crossSectionEffect, Coherent_withCrossSectionValue.
Qed.

Lemma Coherent_createCrossSection (point : Vector3) (st : Viewer) :
  Coherent st -> Coherent (createCrossSection point (Vector3.mk 0 1 0) st).
Proof.
  intros HC. unfold createCrossSection.
  destruct (activeMeshRef st) as [mesh|] eqn:E; [|assumption].
  destruct HC as [H1 H2 H3 H4 H5 H6].
  split; simpl; auto.
  - repeat split. rewrite length_app. simpl. lia.
  - intros mesh' [= <-]. simpl. now right.
  - intros plane Hin. apply elem_of_app in Hin as [Hin|Hin]; auto.
    apply list_elem_of_singleton in Hin as ->. reflexivity.
Qed.

Lemma Coherent_createMarginLine (point : Vector3) (st : Viewer) :
  Coherent st ->
  Coherent (createMarginLine (marginPoints st ++ [point])
              (setMarginPoints (marginPoints st ++ [point]) st)).
Proof.
  intros [H1 H2 H3 H4 H5 H6]. unfold createMarginLine.
  destruct (decide _) as [Hshort|Hlong].
  - split; simpl; auto.
    destruct (marginLine st) as [mg|]; [|assumption].
    rewrite length_app in Hshort. simpl in Hshort. lia.
  - split; simpl; auto. repeat split. lia.
Qed.

Lemma Coherent_recordPoint (context : bool) (point : Vector3) (st : Viewer) :
  Coherent st -> Coherent (recordPoint numberToString context point st).
Proof.
  intros [H1 H2 H3 H4 H5 H6]. unfold recordPoint.
  destruct (measureStartPoint st) as [start|]; split; simpl; auto; try discriminate.
  intros sp [= <-]. reflexivity.
Qed.

Lemma Coherent_handleClick (hit : option Vector3) (context : bool)
    (promptText : option string) (st : Viewer) :
  Coherent st ->
  Coherent (handleClick computeVertexNormals setHSL numberToString hit context promptText st).
Proof.
  intros HC. unfold handleClick. destruct hit as [point|]; [|assumption].
  destruct (mode st).
  - assumption.
  - destruct HC as [H1 H2 H3 H4 H5 H6]. now split.
  - now apply Coherent_recordPoint.
  - now apply Coherent_applyDeformation.
  - now apply Coherent_applyDeformation.
  - now apply Coherent_applyDeformation.
  - now apply Coherent_createMarginLine.
  - now apply Coherent_toast, Coherent_performOcclusalAnalysis.
  - now apply Coherent_toast, Coherent_setCrossSectionValue, Coherent_createCrossSection.
  - destruct promptText as [noteText|]; [|assumption].
    destruct (String.eqb noteText EmptyString) eqn:Hempty; [assumption|].
    destruct HC as [H1 H2 H3 H4 H5 H6]. split; simpl; auto.
    intros nt Hin. apply elem_of_app in Hin as [Hin|Hin]; auto.
    apply list_elem_of_singleton in Hin as ->. simpl. split; [|reflexivity].
    intros ->. discriminate.
Qed.

Lemma Coherent_onload (result : ParseResult) (st : Viewer) :
  Coherent st -> Coherent (onload boundingBoxCenter result st).
Proof.
  intros HC. destruct result as [| |decoded]; simpl; [assumption|now apply Coherent_toast|].
  destruct HC as [H1 H2 H3 H4 H5 H6]. split; simpl; auto.
  intros mesh [= <-]. now left.
Qed.

Lemma Coherent_step (st : Viewer) (e : Event) :
  Coherent st ->
  Coherent (step computeVertexNormals setHSL boundingBoxCenter numberToString st e).
Proof.
  intros HC. destruct e as [hit context promptText|m|value|result]; simpl.
  - now apply Coherent_handleClick.
  - unfold changeMode. destruct (decide _); [assumption|].
    now apply Coherent_crossSectionEffect, Coherent_withMode.
  - unfold onValueChange. destruct (mode st); try assumption.
    destruct (planeHelperRef st); [|assumption].
    now apply Coherent_setCrossSectionValue.
  - now apply Coherent_onload.
Qed.

Lemma reachable_Coherent (st : Viewer) :
  reachable computeVertexNormals setHSL boundingBoxCenter numberToString st -> Coherent st.
Proof.
  induction 1 as [|st e _ IH]; [apply Coherent_mounted|now apply Coherent_step].
Qed.

End CoherentSteps.

(** ** The scene by kind of object *)

Lemma filter_sceneRemove_same (P : Object3D -> Prop) `{!forall a, Decision (P a)}
    (r : Object3D) (c : list Object3D) :
  NoDup (uuid <$> c) -> filter P c = [r] -> filter P (sceneRemove r c) = [].
Proof.
  intros Hnd HP. rewrite sceneRemove_filter by assumption.
  rewrite filter_filter_comm, HP. rewrite filter_cons_False by tauto. reflexivity.
Qed.

Lemma invariant_stored_in (st : Viewer) (r : Object3D) :
  invariant st -> r ∈ storedObjects st -> r ∈ children st.
Proof. intros HInv Hr. now destruct (inv_stored _ _ _ _ HInv r Hr). Qed.

Lemma Census_frame (st st' : Viewer) :
  children st' = children st ->
  marginLine st' = marginLine st ->
  planeHelperRef st' = planeHelperRef st ->
  notes st' = notes st ->
  modelObject <$> activeMeshRef st' = modelObject <$> activeMeshRef st ->
  Census st -> Census st'.
Proof.
  intros H1 H2 H3 H4 H5 [C1 C2 C3 C4]. split; rewrite H1; congruence.
Qed.

(** Replacing the object of a kind [p] that the scene holds, if it holds
    one, by a new object of that kind. *)
Lemma filter_replace_same (p : Object3D -> bool) (c : list Object3D)
    (old : option Object3D) (o : Object3D) :
  NoDup (uuid <$> c) ->
  filter p c = option_list old ->
  p o = true ->
  filter p (sceneAdd o (match old with Some r => sceneRemove r c | None => c end)) = [o].
Proof.
  intros Hnd Hp Ho. unfold sceneAdd. rewrite filter_app.
  rewrite (filter_cons_True _ o) by now rewrite Ho.
  destruct old as [r|]; simpl in Hp.
  - now rewrite (filter_sceneRemove_same _ r c Hnd Hp).
  - now rewrite Hp.
Qed.

(** Replacing an object of another kind than [p]. *)
Lemma filter_replace_other (p : Object3D -> bool) (c : list Object3D)
    (old : option Object3D) (o : Object3D) :
  NoDup (uuid <$> c) ->
  (forall r, old = Some r -> r ∈ c /\ p r = false) ->
  p o = false ->
  filter p (sceneAdd o (match old with Some r => sceneRemove r c | None => c end)) =
  filter p c.
Proof.
  intros Hnd Hold Ho. unfold sceneAdd. rewrite filter_app.
  rewrite (filter_cons_False _ o) by now rewrite Ho.
  rewrite filter_nil, app_nil_r.
  destruct old as [r|]; [|reflexivity].
  destruct (Hold r eq_refl) as [Hin Hr].
  apply filter_sceneRemove_other; auto. now rewrite Hr.
Qed.

Lemma filter_add_other (p : Object3D -> bool) (c : list Object3D) (o : Object3D) :
  p o = false -> filter p (sceneAdd o c) = filter p c.
Proof.
  intros Ho. unfold sceneAdd.
  now rewrite filter_app, filter_cons_False, filter_nil, app_nil_r by now rewrite Ho.
Qed.

Lemma filter_add_same (p : Object3D -> bool) (c : list Object3D) (o : Object3D) :
  p o = true -> filter p (sceneAdd o c) = filter p c ++ [o].
Proof.
  intros Ho. unfold sceneAdd.
  now rewrite filter_app, filter_cons_True by now rewrite Ho.
Qed.

Lemma clearModels_no_models (visits : nat) :
  forall (k : nat) (c : list Object3D),
    (forall a, a ∈ c -> isModel a = false) -> clearModels visits k c = c.
Proof.
  induction visits as [|visits IH]; intros k c Hnone; simpl; [reflexivity|].
  destruct (c !! k) as [child|] eqn:Hk; [|now apply IH].
  assert (Hchild : isModel child = false).
  { apply Hnone. eapply list_elem_of_lookup_2; eassumption. }
  unfold isModel in Hchild. rewrite Hchild. now apply IH.
Qed.

(** The [forEach] of the load handler removes the model when the scene
    holds a single one. *)
Lemma clearModels_one_model (visits : nat) :
  forall (k : nat) (c : list Object3D) (m : Object3D),
    NoDup (uuid <$> c) ->
    modelsIn c = [m] ->
    (forall j a, j < k -> c !! j = Some a -> isModel a = false) ->
    length c <= k + visits ->
    modelsIn (clearModels visits k c) = [].
Proof.
  induction visits as [|visits IH]; intros k c m Hnd Hm Hbefore Hlen.
  - exfalso. assert (Hin : m ∈ modelsIn c) by (rewrite Hm; left).
    apply list_elem_of_filter in Hin as [Hmodel Hin].
    apply list_elem_of_lookup in Hin as [j Hj].
    assert (j < k) by (apply lookup_lt_Some in Hj; lia).
    rewrite (Hbefore j m) in Hmodel; auto.
  - simpl. destruct (c !! k) as [child|] eqn:Hk.
    + destruct (instanceofMesh child && negb (isPoint child)) eqn:Hchild.
      * assert (Hin : child ∈ modelsIn c).
        { apply list_elem_of_filter. split.
          - unfold isModel. now rewrite Hchild.
          - eapply list_elem_of_lookup_2; eassumption. }
        rewrite Hm in Hin. apply list_elem_of_singleton in Hin as ->.
        assert (Hgone : modelsIn (sceneRemove m c) = [])
          by (apply filter_sceneRemove_same; assumption).
        rewrite clearModels_no_models; [assumption|].
        intros a Ha. destruct (isModel a) eqn:Ha'; [|reflexivity].
        exfalso. assert (Hin : a ∈ modelsIn (sceneRemove m c)).
        { apply list_elem_of_filter. split; [now rewrite Ha'|assumption]. }
        rewrite Hgone in Hin. inversion Hin.
      * apply (IH (S k) c m); auto; [|lia].
        intros j a Hj Ha. destruct (decide (j = k)) as [->|Hne].
        -- rewrite Hk in Ha. injection Ha as <-. exact Hchild.
        -- apply (Hbefore j a); [lia|assumption].
    + apply (IH (S k) c m); auto; [|lia].
      intros j a Hj Ha. destruct (decide (j = k)) as [->|Hne]; [congruence|].
      apply (Hbefore j a); [lia|assumption].
Qed.

Lemma modelsIn_clearModels (c : list Object3D) (model : option Object3D) :
  NoDup (uuid <$> c) ->
  modelsIn c = option_list model ->
  modelsIn (clearModels (length c) 0 c) = [].
Proof.
  intros Hnd Hm. destruct model as [m|]; simpl in Hm.
  - apply (clearModels_one_model (length c) 0 c m); auto; try lia.
  - rewrite clearModels_no_models; [assumption|].
    intros a Ha. destruct (isModel a) eqn:Ha'; [|reflexivity].
    exfalso. assert (Hin : a ∈ modelsIn c).
    { apply list_elem_of_filter. split; [now rewrite Ha'|assumption]. }
    rewrite Hm in Hin. inversion Hin.
Qed.

Section CensusSteps.

Variable computeVertexNormals : BufferAttribute -> BufferAttribute.
Variable setHSL : float -> float -> float -> Color.
Variable boundingBoxCenter : BufferAttribute -> Vector3.
Variable numberToString : float -> string.

Lemma Census_applyDeformation (point : Vector3) (radius strength : float) (st : Viewer) :
  Census st -> Census (applyDeformation computeVertexNormals point radius strength st).
Proof.
  apply Census_frame; unfold applyDeformation;
    destruct (activeMeshRef st) eqn:E; simpl; rewrite ?E; reflexivity.
Qed.

Lemma Census_performOcclusalAnalysis (point : Vector3) (st : Viewer) :
  Census st -> Census (performOcclusalAnalysis setHSL point st).
Proof.
  apply Census_frame; unfold performOcclusalAnalysis;
    destruct (activeMeshRef st) eqn:E; simpl; rewrite ?E; reflexivity.
Qed.

Lemma Census_crossSectionEffect (st : Viewer) : Census st -> Census (crossSectionEffect st).
Proof.
  apply Census_frame; unfold crossSectionEffect;
    destruct (mode st), (crossSectionPlaneRef st), (planeHelperRef st) eqn:E; simpl; auto.
Qed.

Lemma Census_setCrossSectionValue (value : float) (st : Viewer) :
  Census st -> Census (setCrossSectionValue value st).
Proof.
  intros HC. unfold setCrossSectionValue. destruct (JS.sameValue _ _); [assumption|].
  apply Census_crossSectionEffect. revert HC. now apply Census_frame.
Qed.

(** A stored object is in the scene and has the kind the state says. *)
Lemma stored_margin_line (st : Viewer) (mg : MarginLine) :
  invariant st -> Coherent st -> marginLine st = Some mg ->
  margin_line mg ∈ children st /\ kind (margin_line mg) = MarginLineObject (marginPoints st).
Proof.
  intros HInv HC Hmg. split.
  - apply invariant_stored_in; [assumption|]. unfold storedObjects. rewrite Hmg.
    simpl. rewrite !elem_of_app. right. left.
  - pose proof (coh_margin st HC) as H. rewrite Hmg in H. tauto.
Qed.

Lemma stored_helper (st : Viewer) (helper : Object3D) :
  invariant st -> Coherent st -> planeHelperRef st = Some helper ->
  helper ∈ children st /\ isPlaneHelper helper = true.
Proof.
  intros HInv HC Hh. split.
  - apply invariant_stored_in; [assumption|]. unfold storedObjects. rewrite Hh.
    simpl. rewrite !elem_of_app. right. right. left.
  - pose proof (coh_section st HC) as H. rewrite Hh in H.
    destruct (crossSectionPlaneRef st); [|contradiction].
    destruct H as [H _]. unfold isPlaneHelper. now rewrite H.
Qed.

Lemma stored_marker (st : Viewer) (start : Point) :
  invariant st -> Coherent st -> measureStartPoint st = Some start ->
  marker start ∈ children st /\ kind (marker start) = Marker (point_position start).
Proof.
  intros HInv HC Hsp. split.
  - now destruct (invariant_marker st start HInv Hsp).
  - now apply (coh_marker st HC).
Qed.

Lemma Census_createMarginLine (point : Vector3) (st : Viewer) :
  invariant st -> Coherent st -> Census st ->
  Census (createMarginLine (marginPoints st ++ [point])
            (setMarginPoints (marginPoints st ++ [point]) st)).
Proof.
  intros HInv HC [C1 C2 C3 C4]. unfold createMarginLine.
  destruct (decide _) as [Hshort|Hlong]; [now split|].
  pose proof (inv_nodup _ _ _ _ HInv) as Hnd.
  assert (Hold : forall p : Object3D -> bool,
             (forall pts, p {| uuid := nextUuid st; kind := MarginLineObject pts |} = false) ->
             (forall o pts, kind o = MarginLineObject pts -> p o = false) ->
             filter p (sceneAdd
                         {| uuid := nextUuid st;
                            kind := MarginLineObject (marginPoints st ++ [point]) |}
                         (match marginLine st with
                          | Some old => sceneRemove (margin_line old) (children st)
                          | None => children st
                          end)) = filter p (children st)).
  { intros p Hnew Hkind.
    pose proof (filter_replace_other p (children st) (margin_line <$> marginLine st)
                  {| uuid := nextUuid st;
                     kind := MarginLineObject (marginPoints st ++ [point]) |} Hnd) as H.
    destruct (marginLine st) as [mg|] eqn:Hmg; simpl in H; apply H; auto; try discriminate.
    intros r [= <-]. destruct (stored_margin_line st mg HInv HC Hmg) as [Hin Hk].
    split; [assumption|]. now apply (Hkind _ _ Hk). }
  split; simpl.
  - pose proof (filter_replace_same isMarginLine (children st) (margin_line <$> marginLine st)
                  {| uuid := nextUuid st;
                     kind := MarginLineObject (marginPoints st ++ [point]) |} Hnd C1 eq_refl) as H.
    now destruct (marginLine st).
  - unfold planeHelpersIn in *. rewrite Hold; auto.
    intros o pts Hk. unfold isPlaneHelper. now rewrite Hk.
  - unfold noteLabelsIn in *. rewrite Hold; auto.
    intros o pts Hk. unfold isNoteLabel. now rewrite Hk.
  - unfold modelsIn in *. rewrite Hold; auto.
    intros o pts Hk. unfold isModel, instanceofMesh, isPoint. now rewrite Hk.
Qed.

Lemma Census_createCrossSection (point normal : Vector3) (st : Viewer) :
  invariant st -> Coherent st -> Census st ->
  Census (createCrossSection point normal st).
Proof.
  intros HInv HC HCen. unfold createCrossSection.
  destruct (activeMeshRef st) as [mesh|] eqn:Hmesh; [|assumption].
  destruct HCen as [C1 C2 C3 C4].
  pose proof (inv_nodup _ _ _ _ HInv) as Hnd.
  set (helper := {| uuid := nextUuid st; kind := PlaneHelper (length (planes st)) |}).
  assert (Hold : forall p : Object3D -> bool,
             p helper = false ->
             (forall o, isPlaneHelper o = true -> p o = false) ->
             filter p (sceneAdd helper
                         (match planeHelperRef st with
                          | Some old => sceneRemove old (children st)
                          | None => children st
                          end)) = filter p (children st)).
  { intros p Hnew Hkind.
    apply (filter_replace_other p (children st) (planeHelperRef st) helper Hnd); auto.
    intros r Hr. destruct (stored_helper st r HInv HC Hr) as [Hin Hk]. auto. }
  split; simpl.
  - unfold marginLinesIn in *. rewrite Hold; auto.
    intros o Hk. unfold isPlaneHelper, isMarginLine in *. now destruct (kind o).
  - now apply (filter_replace_same isPlaneHelper (children st) (planeHelperRef st) helper).
  - unfold noteLabelsIn in *. rewrite Hold; auto.
    intros o Hk. unfold isPlaneHelper, isNoteLabel in *. now destruct (kind o).
  - unfold modelsIn in *. rewrite Hold, C4, Hmesh; auto.
    intros o Hk. unfold isPlaneHelper, isModel, instanceofMesh, isPoint in *.
    now destruct (kind o).
Qed.

(** The measurement tool leaves the objects of the other tools alone. *)
Lemma filter_recordPoint (p : Object3D -> bool) (context : bool) (point : Vector3)
    (st : Viewer) :
  invariant st -> Coherent st ->
  (forall a, p a = true ->
     isPoint a = false /\ isMeasureLine a = false /\ isDistanceLabel a = false) ->
  filter p (children (recordPoint numberToString context point st)) = filter p (children st).
Proof.
  intros HInv HC Hp.
  assert (Hnot : forall a, (isPoint a = true \/ isMeasureLine a = true \/
                            isDistanceLabel a = true) -> p a = false).
  { intros a Ha. destruct (p a) eqn:E; [|reflexivity].
    destruct (Hp a E) as (H1 & H2 & H3). destruct Ha as [Ha|[Ha|Ha]]; congruence. }
  destruct (measureStartPoint st) as [start|] eqn:Hsp.
  - rewrite (recordPoint_armed_children numberToString context point st start HInv Hsp).
    rewrite !filter_add_other by (apply Hnot; auto).
    destruct (stored_marker st start HInv HC Hsp) as [Hin Hk].
    pose proof (Inv_withoutMeasurement _ _ _ _ HInv) as HInv0.
    rewrite filter_sceneRemove_other.
    + apply (filter_withoutMeasurement _ _ _ _ _ HInv).
      intros a Ha. apply Is_true_true in Ha. now destruct (Hp a Ha).
    + apply (inv_nodup _ _ _ _ HInv0).
    + apply (inv_stored _ _ _ _ HInv0). unfold storedObjects. rewrite Hsp. left.
    + rewrite Hnot; [auto|]. left. unfold isPoint. now rewrite Hk.
  - unfold recordPoint. rewrite Hsp. simpl.
    apply filter_add_other, Hnot. now left.
Qed.

Lemma Census_recordPoint (context : bool) (point : Vector3) (st : Viewer) :
  invariant st -> Coherent st -> Census st ->
  Census (recordPoint numberToString context point st).
Proof.
  intros HInv HC [C1 C2 C3 C4].
  assert (Hrefs : marginLine (recordPoint numberToString context point st) = marginLine st /\
                  planeHelperRef (recordPoint numberToString context point st)
                  = planeHelperRef st /\
                  notes (recordPoint numberToString context point st) = notes st /\
                  activeMeshRef (recordPoint numberToString context point st)
                  = activeMeshRef st).
  { unfold recordPoint. now destruct (measureStartPoint st). }
  destruct Hrefs as (R1 & R2 & R3 & R4).
  split; rewrite ?R1, ?R2, ?R3, ?R4.
  - unfold marginLinesIn in *. rewrite filter_recordPoint; auto.
    intros a Ha. unfold isMarginLine, isPoint, isMeasureLine, isDistanceLabel in *.
    now destruct (kind a).
  - unfold planeHelpersIn in *. rewrite filter_recordPoint; auto.
    intros a Ha. unfold isPlaneHelper, isPoint, isMeasureLine, isDistanceLabel in *.
    now destruct (kind a).
  - unfold noteLabelsIn in *. rewrite filter_recordPoint; auto.
    intros a Ha. unfold isNoteLabel, isPoint, isMeasureLine, isDistanceLabel in *.
    now destruct (kind a).
  - unfold modelsIn in *. rewrite filter_recordPoint; auto.
    intros a Ha. unfold isModel, instanceofMesh, isPoint, isMeasureLine, isDistanceLabel in *.
    now destruct (kind a).
Qed.

Lemma Census_handleClick (hit : option Vector3) (context : bool)
    (promptText : option string) (st : Viewer) :
  invariant st -> Coherent st -> Census st ->
  Census (handleClick computeVertexNormals setHSL numberToString hit context promptText st).
Proof.
  intros HInv HC HCen. unfold handleClick. destruct hit as [point|]; [|assumption].
  destruct (mode st).
  - assumption.
  - destruct HCen as [C1 C2 C3 C4]. split; simpl.
    + unfold marginLinesIn in *. now rewrite filter_add_other.
    + unfold planeHelpersIn in *. now rewrite filter_add_other.
    + unfold noteLabelsIn in *. now rewrite filter_add_other.
    + unfold modelsIn in *. now rewrite filter_add_other.
  - now apply Census_recordPoint.
  - now apply Census_applyDeformation.
  - now apply Census_applyDeformation.
  - now apply Census_applyDeformation.
  - now apply Census_createMarginLine.
  - apply (Census_frame (performOcclusalAnalysis setHSL point st)); try reflexivity.
    now apply Census_performOcclusalAnalysis.
  - apply (Census_frame
             (setCrossSectionValue 0 (createCrossSection point (Vector3.mk 0 1 0) st)));
      try reflexivity.
    now apply Census_setCrossSectionValue, Census_createCrossSection.
  - destruct promptText as [noteText|]; [|assumption].
    destruct (String.eqb noteText EmptyString); [assumption|].
    destruct HCen as [C1 C2 C3 C4]. split; simpl.
    + unfold marginLinesIn in *. now rewrite filter_add_other.
    + unfold planeHelpersIn in *. now rewrite filter_add_other.
    + unfold noteLabelsIn in *. rewrite filter_add_same by reflexivity.
      now rewrite fmap_app, C3.
    + unfold modelsIn in *. now rewrite filter_add_other.
Qed.

Lemma Census_onload (result : ParseResult) (st : Viewer) :
  invariant st -> Census st -> Census (onload boundingBoxCenter result st).
Proof.
  intros HInv HCen. destruct result as [| |decoded]; simpl; try assumption.
  - revert HCen. now apply Census_frame.
  - pose proof (inv_nodup _ _ _ _ HInv) as Hnd.
    destruct HCen as [C1 C2 C3 C4]. split; simpl.
    + unfold marginLinesIn in *. rewrite filter_add_other by reflexivity.
      rewrite filter_clearModels; auto.
      intros a Ha. apply Is_true_true in Ha.
      unfold isMarginLine, isModel, instanceofMesh, isPoint in *. now destruct (kind a).
    + unfold planeHelpersIn in *. rewrite filter_add_other by reflexivity.
      rewrite filter_clearModels; auto.
      intros a Ha. apply Is_true_true in Ha.
      unfold isPlaneHelper, isModel, instanceofMesh, isPoint in *. now destruct (kind a).
    + unfold noteLabelsIn in *. rewrite filter_add_other by reflexivity.
      rewrite filter_clearModels; auto.
      intros a Ha. apply Is_true_true in Ha.
      unfold isNoteLabel, isModel, instanceofMesh, isPoint in *. now destruct (kind a).
    + unfold modelsIn in *. rewrite filter_add_same by reflexivity.
      fold (modelsIn (clearModels (length (children st)) 0 (children st))).
      now rewrite (modelsIn_clearModels _ _ Hnd C4).
Qed.

Lemma Census_step (st : Viewer) (e : Event) :
  invariant st -> Coherent st -> Census st ->
  Census (step computeVertexNormals setHSL boundingBoxCenter numberToString st e).
Proof.
  intros HInv HC HCen. destruct e as [hit context promptText|m|value|result]; simpl.
  - now apply Census_handleClick.
  - unfold changeMode. destruct (decide _); [assumption|].
    apply Census_crossSectionEffect. revert HCen. now apply Census_frame.
  - unfold onValueChange. destruct (mode st); try assumption.
    destruct (planeHelperRef st); [|assumption].
    now apply Census_setCrossSectionValue.
  - now apply Census_onload.
Qed.

Lemma Census_mounted (m : Mode) : Census (mounted m).
Proof. now split. Qed.

(** The three invariants together, in every state the component reaches. *)
Lemma reachable_invariants (st : Viewer) :
  reachable computeVertexNormals setHSL boundingBoxCenter numberToString st ->
  invariant st /\ Coherent st /\ Census st.
Proof.
  induction 1 as [|st e _ (HInv & HC & HCen)].
  - split; [apply invariant_mounted|]. split; [apply Coherent_mounted|apply Census_mounted].
  - split; [now apply invariant_step|]. split; [now apply Coherent_step|].
    now apply Census_step.
Qed.

End CensusSteps.

(** ** Loading a file *)

Section Load.

Variable computeVertexNormals : BufferAttribute -> BufferAttribute.
Variable setHSL : float -> float -> float -> Color.
Variable boundingBoxCenter : BufferAttribute -> Vector3.
Variable numberToString : float -> string.

(** C3 (as the code has it): loading a file replaces the active mesh
    by a mesh with the decoded geometry and a new material, which has no
    vertex colours flagged and no clipping plane, and replaces the model
    in the scene: the model of the previous mesh is no longer there and
    the one model of the scene is that of the new mesh, added last.  It
    leaves the margin points and line, the stored measurement point, the
    measurement line and label, the cross-section plane, its helper and
    the slider value as they were, and every scene object other than a
    model stays in the scene, in the order it had. *)
Theorem onload_replaces_the_mesh_only (decoded : BufferGeometry) (st : Viewer) :
  reachable computeVertexNormals setHSL boundingBoxCenter numberToString st ->
  let st' := onload boundingBoxCenter (Parsed decoded) st in
  (activeGeometry st' = Some decoded /\
   material <$> activeMeshRef st' = Some newMaterial) /\
  (marginPoints st' = marginPoints st /\
   marginLine st' = marginLine st /\
   measureStartPoint st' = measureStartPoint st /\
   measureLine st' = measureLine st /\
   crossSectionPlaneRef st' = crossSectionPlaneRef st /\
   planeHelperRef st' = planeHelperRef st /\
   planes st' = planes st /\
   crossSectionValue st' = crossSectionValue st) /\
  otherThanModels (children st') = otherThanModels (children st) /\
  (forall r, r ∈ storedObjects st -> r ∈ children st') /\
  (let model := {| uuid := nextUuid st; kind := Model |} in
   modelObject <$> activeMeshRef st' = Some model /\
   modelsIn (children st') = [model] /\
   children st' = otherThanModels (children st) ++ [model] /\
   (forall old : Mesh, activeMeshRef st = Some old -> modelObject old ∉ children st')).
Proof.
  intros Hreach st'.
  destruct (reachable_invariants _ _ _ _ st Hreach) as (HInv & _ & HCen).
  pose proof (inv_nodup _ _ _ _ HInv) as Hnd.
  assert (Hcleared : modelsIn (clearModels (length (children st)) 0 (children st)) = [])
    by exact (modelsIn_clearModels _ _ Hnd (cen_models st HCen)).
  assert (Hothers : clearModels (length (children st)) 0 (children st)
                    = otherThanModels (children st)).
  { unfold otherThanModels.
    rewrite <- (filter_clearModels (fun o => isModel o = false)
                  (length (children st)) (fun a Ha => Ha) 0 (children st) Hnd).
    symmetry. apply filter_all. intros a Ha.
    destruct (isModel a) eqn:Hmodel; [|reflexivity].
    exfalso. assert (Hin : a ∈ modelsIn (clearModels (length (children st)) 0 (children st))).
    { apply list_elem_of_filter. split; [now rewrite Hmodel|assumption]. }
    rewrite Hcleared in Hin. inversion Hin. }
  assert (Hmodels : modelsIn (children st') = [{| uuid := nextUuid st; kind := Model |}]).
  { subst st'. simpl. unfold modelsIn in *.
    rewrite filter_add_same by reflexivity. now rewrite Hcleared. }
  split; [now split|]. split; [now repeat split|]. split; [|split].
  - subst st'. unfold otherThanModels. simpl. unfold sceneAdd.
    rewrite filter_app, filter_cons_False, filter_nil, app_nil_r by (simpl; auto).
    apply filter_clearModels; [auto|]. exact Hnd.
  - intros r Hr.
    pose proof (invariant_onload boundingBoxCenter (Parsed decoded) st HInv) as HInv'.
    apply (inv_stored _ _ _ _ HInv' r). exact Hr.
  - intros model. split; [reflexivity|]. split; [exact Hmodels|]. split.
    + subst st'. simpl. unfold sceneAdd. now rewrite Hothers.
    + intros old Hold Hin.
      assert (Hnew : modelObject old ∈ modelsIn (children st'))
        by (apply list_elem_of_filter; split; [exact I|assumption]).
      rewrite Hmodels in Hnew. apply list_elem_of_singleton in Hnew.
      assert (Hwas : modelObject old ∈ modelsIn (children st)).
      { rewrite (cen_models st HCen), Hold. simpl. left. }
      apply list_elem_of_filter in Hwas as [_ Hwas].
      pose proof (inv_fresh _ _ _ _ HInv _ Hwas) as Hlt.
      rewrite Hnew in Hlt. simpl in Hlt. lia.
Qed.

End Load.

(** Loading a second file while a measurement is pending: the marker and
    the stored point stay, and the model of the first file, of identity 2,
    gives way to that of the second, of identity 4. *)
Lemma onload_replaces_the_mesh_only_witness :
  let st := session [ModeChange measure; clickAt (Vector3.mk 0 0 0)] in
  let st' := exampleStep st (FileLoaded (Parsed flatTriangle)) in
  measureStartPoint st' = measureStartPoint st /\
  otherThanModels (children st') = otherThanModels (children st) /\
  modelsIn (children st) = [{| uuid := 2; kind := Model |}] /\
  modelsIn (children st') = [{| uuid := 4; kind := Model |}] /\
  {| uuid := 2; kind := Model |} ∉ children st'.
Proof.
  intros st st'.
  destruct (onload_replaces_the_mesh_only computeVertexNormals_nonIndexed hslToRgb
              (fun _ => Vector3.zero) exampleNumberToString flatTriangle st
              (session_reachable [ModeChange measure; clickAt (Vector3.mk 0 0 0)]))
    as (_ & (_ & _ & Hsp & _) & Hothers & _ & _ & Hmodels & _ & Hold).
  split; [exact Hsp|]. split; [exact Hothers|]. split; [reflexivity|].
  split; [exact Hmodels|].
  exact (Hold {| mesh_uuid := 2; geometry := flatTriangle; material := newMaterial;
                 mesh_position := Vector3.sub Vector3.zero Vector3.zero |} eq_refl).
Defined.

(** C3 as stated fails: after a margin line was traced, a measurement
    started and a cross-section created, loading another file leaves the
    margin points and the margin line, the stored measurement point and
    its marker, and the cross-section plane and its helper where they
    were, in the state and in the scene. *)
Lemma onload_keeps_derived_state :
  let p := Vector3.mk 0 0 0 in
  let q := Vector3.mk 1 0 0 in
  let st := session [ModeChange margin; clickAt p; clickAt q;
                     ModeChange measure; clickAt p;
                     ModeChange section; clickAt q] in
  let st' := exampleStep st (FileLoaded (Parsed flatTriangle)) in
  marginPoints st' = [p; q] /\
  marginLine st' =
    Some {| margin_points := [p; q];
            margin_line := {| uuid := 3; kind := MarginLineObject [p; q] |} |} /\
  measureStartPoint st' =
    Some {| point_position := p; marker := {| uuid := 4; kind := Marker p |} |} /\
  crossSectionPlaneRef st' = Some 0 /\
  planeHelperRef st' = Some {| uuid := 5; kind := PlaneHelper 0 |} /\
  children st' =
    [ {| uuid := 0; kind := AmbientLight |};
      {| uuid := 1; kind := DirectionalLight |};
      {| uuid := 3; kind := MarginLineObject [p; q] |};
      {| uuid := 4; kind := Marker p |};
      {| uuid := 5; kind := PlaneHelper 0 |};
      {| uuid := 6; kind := Model |} ].
Proof. repeat split. Qed.

(** ** Properties of the tools in every reachable state *)

Section Tools.

Variable computeVertexNormals : BufferAttribute -> BufferAttribute.
Variable setHSL : float -> float -> float -> Color.
Variable boundingBoxCenter : BufferAttribute -> Vector3.
Variable numberToString : float -> string.

#[local] Abbreviation reachable' :=
  (reachable computeVertexNormals setHSL boundingBoxCenter numberToString).

(** X1: a margin line exists exactly from the second margin point on; it
    is then the only margin line of the scene and runs through all the
    margin points in the order they were picked. *)
Theorem margin_line_follows_points (st : Viewer) :
  reachable' st ->
  match marginLine st with
  | Some mg =>
      2 <= length (marginPoints st) /\
      margin_points mg = marginPoints st /\
      kind (margin_line mg) = MarginLineObject (marginPoints st) /\
      marginLinesIn (children st) = [margin_line mg]
  | None =>
      length (marginPoints st) < 2 /\ marginLinesIn (children st) = []
  end.
Proof.
  intros Hreach.
  destruct (reachable_invariants _ _ _ _ st Hreach) as (_ & HC & HCen).
  pose proof (coh_margin st HC) as Hm. pose proof (cen_margin st HCen) as Hs.
  destruct (marginLine st) as [mg|]; simpl in Hs; tauto.
Qed.

(** X3: the plane reference and the plane helper are set together; the
    helper then shows the referenced plane and is the only helper of the
    scene, the plane exists and is horizontal, local clipping is enabled,
    and the active mesh is clipped by no plane or by that plane alone. *)
Theorem one_cross_section (st : Viewer) :
  reachable' st ->
  match crossSectionPlaneRef st, planeHelperRef st with
  | Some ref, Some helper =>
      kind helper = PlaneHelper ref /\
      planeHelpersIn (children st) = [helper] /\
      (exists c, planes st !! ref =
                 Some {| plane_normal := Vector3.mk 0 1 0; constant := c |}) /\
      localClippingEnabled st = true /\
      (forall mesh, activeMeshRef st = Some mesh ->
         clippingPlanes (material mesh) = [] \/ clippingPlanes (material mesh) = [ref])
  | None, None =>
      planeHelpersIn (children st) = [] /\
      (forall mesh, activeMeshRef st = Some mesh -> clippingPlanes (material mesh) = [])
  | _, _ => False
  end.
Proof.
  intros Hreach.
  destruct (reachable_invariants _ _ _ _ st Hreach) as (_ & HC & HCen).
  pose proof (coh_section st HC) as Hsec. pose proof (cen_helper st HCen) as Hh.
  pose proof (coh_clipping st HC) as Hclip. pose proof (coh_normals st HC) as Hn.
  destruct (crossSectionPlaneRef st) as [ref|], (planeHelperRef st) as [helper|];
    simpl in *; try contradiction.
  - destruct Hsec as (Hk & Hlt & Hen). repeat split; auto.
    destruct (lookup_lt_is_Some_2 (planes st) ref Hlt) as [plane Hplane].
    exists (constant plane). rewrite Hplane. f_equal.
    rewrite <- (Hn plane) by (eapply list_elem_of_lookup_2; eassumption).
    now destruct plane.
  - split; [assumption|]. intros mesh Hmesh. destruct (Hclip mesh Hmesh); assumption.
Qed.

(** X5: the scene holds one model, that of the active mesh, once a file
    was loaded, and none before: the load handler does remove the
    previous model. *)
Theorem one_model (st : Viewer) :
  reachable' st ->
  modelsIn (children st) = option_list (modelObject <$> activeMeshRef st).
Proof.
  intros Hreach.
  destruct (reachable_invariants _ _ _ _ st Hreach) as (_ & _ & HCen).
  apply (cen_models st HCen).
Qed.

(** X6: the note labels of the scene are the sprites of the notes, in
    the order the notes were added, and every note has a text. *)
Theorem notes_are_shown (st : Viewer) :
  reachable' st ->
  noteLabelsIn (children st) = note_sprite <$> notes st /\
  (forall nt, nt ∈ notes st -> note_text nt <> EmptyString).
Proof.
  intros Hreach.
  destruct (reachable_invariants _ _ _ _ st Hreach) as (_ & HC & HCen).
  split; [apply (cen_notes st HCen)|].
  intros nt Hnt. now destruct (coh_notes st HC nt Hnt).
Qed.

End Tools.

(** ** What is only ever appended to *)

Ltac destruct_matches :=
  repeat match goal with
         | |- context [match ?x with _ => _ end] => destruct x eqn:?; simpl
         end.

Section AppendOnly.

Variable computeVertexNormals : BufferAttribute -> BufferAttribute.
Variable setHSL : float -> float -> float -> Color.
Variable boundingBoxCenter : BufferAttribute -> Vector3.
Variable numberToString : float -> string.

#[local] Abbreviation step' :=
  (step computeVertexNormals setHSL boundingBoxCenter numberToString).

Lemma step_marginPoints (st : Viewer) (e : Event) :
  marginPoints (step' st e) = marginPoints st \/
  exists point, marginPoints (step' st e) = marginPoints st ++ [point].
Proof.
  destruct e as [hit context promptText|m|value|result]; simpl;
    unfold handleClick, changeMode, onValueChange, onload, applyDeformation,
      performOcclusalAnalysis, createMarginLine, recordPoint, setCrossSectionValue,
      createCrossSection, crossSectionEffect;
    destruct_matches;
    first [left; reflexivity | right; eexists; reflexivity].
Qed.

Lemma step_notes (st : Viewer) (e : Event) :
  notes (step' st e) = notes st \/
  exists nt, notes (step' st e) = notes st ++ [nt].
Proof.
  destruct e as [hit context promptText|m|value|result]; simpl;
    unfold handleClick, changeMode, onValueChange, onload, applyDeformation,
      performOcclusalAnalysis, createMarginLine, recordPoint, setCrossSectionValue,
      createCrossSection, crossSectionEffect;
    destruct_matches;
    first [left; reflexivity | right; eexists; reflexivity].
Qed.

(** X2: margin points and notes are only ever appended: whatever happens
    to the component, loading another file included, the margin points
    and the notes it had are a prefix of those it has afterwards; a click
    in the margin mode that hits the model appends the picked point. *)
Theorem margin_points_and_notes_append_only (st : Viewer) (events : list Event) :
  marginPoints st `prefix_of` marginPoints (foldl step' st events) /\
  notes st `prefix_of` notes (foldl step' st events) /\
  (forall point context promptText,
      mode st = margin ->
      marginPoints (step' st (Click (Some point) context promptText)) =
      marginPoints st ++ [point]).
Proof.
  split; [|split].
  - revert st. induction events as [|e events IH]; intros st; [reflexivity|].
    simpl. etransitivity; [|apply IH].
    destruct (step_marginPoints st e) as [->|[point ->]]; [reflexivity|].
    now apply prefix_app_r.
  - revert st. induction events as [|e events IH]; intros st; [reflexivity|].
    simpl. etransitivity; [|apply IH].
    destruct (step_notes st e) as [->|[nt ->]]; [reflexivity|].
    now apply prefix_app_r.
  - intros point context promptText Hmode. simpl. unfold handleClick. rewrite Hmode.
    unfold createMarginLine. now destruct (decide _).
Qed.

End AppendOnly.

(** ** Creating a cross-section after the slider was moved *)

Section SectionClick.

Variable computeVertexNormals : BufferAttribute -> BufferAttribute.
Variable setHSL : float -> float -> float -> Color.
Variable numberToString : float -> string.

(** X4: a click in the section mode makes a horizontal plane and resets
    the slider state to 0.  When the slider state was 0 already, the plane
    passes through the picked point; when the slider had been moved, the
    reset runs the slider effect, which overwrites the constant with -0. *)
Theorem section_click_constant (point : Vector3) (context : bool)
    (promptText : option string) (st : Viewer) (mesh : Mesh) :
  mode st = section ->
  activeMeshRef st = Some mesh ->
  let st1 := handleClick computeVertexNormals setHSL numberToString
               (Some point) context promptText st in
  crossSectionPlaneRef st1 = Some (length (planes st)) /\
  crossSectionValue st1 = 0%float /\
  planes st1 !! length (planes st) =
    Some {| plane_normal := Vector3.mk 0 1 0;
            constant := if JS.sameValue 0 (crossSectionValue st)
                        then (- Vector3.dot point (Vector3.mk 0 1 0))%float
                        else (- 0)%float |}.
Proof.
  intros Hmode Hmesh st1.
  destruct (sectionActive_click computeVertexNormals setHSL numberToString
              point context promptText st mesh Hmode Hmesh) as [(_ & Href & _) Hzero].
  fold st1 in Href, Hzero. split; [assumption|]. split; [assumption|].
  subst st1. unfold handleClick. rewrite Hmode. simpl.
  destruct (sectionActive_createCrossSection point (Vector3.mk 0 1 0) st mesh Hmode Hmesh)
    as (Hactive & Hplane & Hvalue).
  unfold setCrossSectionValue. rewrite Hvalue.
  destruct (JS.sameValue 0 (crossSectionValue st)) eqn:Hsame.
  - exact Hplane.
  - destruct (sectionActive_crossSectionEffect (length (planes st)) (Vector3.mk 0 1 0)
                (withCrossSectionValue 0 (createCrossSection point (Vector3.mk 0 1 0) st))
                Hactive) as (_ & Hplane' & _).
    exact Hplane'.
Qed.

End SectionClick.

(** ** What stays in the scene *)

Lemma sceneRemove_keeps (o r : Object3D) (c : list Object3D) :
  o ∈ c -> uuid o <> uuid r -> o ∈ sceneRemove r c.
Proof.
  intros Hin Hne. induction c as [|a c IH]; [inversion Hin|]. simpl.
  destruct (decide (uuid a = uuid r)) as [Heq|Hneq].
  - apply elem_of_cons in Hin as [->|Hin]; [congruence|assumption].
  - apply elem_of_cons in Hin as [->|Hin]; [left|right; auto].
Qed.

Lemma clearModels_keeps (visits k : nat) (c : list Object3D) (o : Object3D) :
  NoDup (uuid <$> c) -> o ∈ c -> isModel o = false -> o ∈ clearModels visits k c.
Proof.
  intros Hnd Hin Hmodel.
  assert (H : o ∈ filter (fun a => isModel a = false) (clearModels visits k c)).
  { rewrite filter_clearModels by auto. now apply list_elem_of_filter. }
  now apply list_elem_of_filter in H.
Qed.

Section Staying.

Variable computeVertexNormals : BufferAttribute -> BufferAttribute.
Variable setHSL : float -> float -> float -> Color.
Variable boundingBoxCenter : BufferAttribute -> Vector3.
Variable numberToString : float -> string.

Lemma stored_uuid_ne (st : Viewer) (o r : Object3D) :
  invariant st -> o ∈ children st -> o ∉ storedObjects st -> r ∈ storedObjects st ->
  uuid o <> uuid r.
Proof.
  intros HInv Ho Hnot Hr Heq.
  apply (uuid_inj_in (children st)) in Heq; auto using invariant_stored_in.
  - congruence.
  - apply (inv_nodup _ _ _ _ HInv).
Qed.

(** X7: an object of the scene that the state holds no reference to and
    that is not a model (a light, a marker placed in the pick mode, a note
    label) stays in the scene whatever happens next, loading another
    file included. *)
Theorem unreferenced_objects_stay (st : Viewer) (o : Object3D) (e : Event) :
  reachable computeVertexNormals setHSL boundingBoxCenter numberToString st ->
  o ∈ children st ->
  isModel o = false ->
  o ∉ storedObjects st ->
  (forall ml, measureLine st = Some ml -> o <> line ml /\ o <> label ml) ->
  o ∈ children (step computeVertexNormals setHSL boundingBoxCenter numberToString st e).
Proof.
  intros Hreach Ho Hmodel Hstored Hml.
  pose proof (reachable_invariant _ _ _ _ st Hreach) as HInv.
  pose proof (inv_nodup _ _ _ _ HInv) as Hnd.
  destruct e as [hit context promptText|m|value|result]; simpl.
  - unfold handleClick. destruct hit as [point|]; [|assumption].
    destruct (mode st).
    + assumption.
    + simpl. apply elem_of_app. now left.
    + destruct (measureStartPoint st) as [start|] eqn:Hsp.
      * rewrite (recordPoint_armed_children numberToString context point st start HInv Hsp).
        unfold sceneAdd. rewrite !elem_of_app. left. left.
        apply sceneRemove_keeps.
        -- destruct (measureLine st) as [old|] eqn:Hold; simpl; [|assumption].
           destruct (Hml old eq_refl) as [Hl Hb].
           destruct (Inv_line_in HInv old Hold) as [Hlin _].
           destruct (Inv_label_in HInv old Hold) as [Hbin _].
           apply sceneRemove_keeps; [apply sceneRemove_keeps|]; auto;
             intros Heq; apply (uuid_inj_in (children st)) in Heq; auto; congruence.
        -- apply (stored_uuid_ne st); auto. unfold storedObjects. rewrite Hsp. left.
      * unfold recordPoint. rewrite Hsp. simpl. apply elem_of_app. now left.
    + now rewrite (proj1 (sameScene_applyDeformation computeVertexNormals point 1 0.5 st)).
    + now rewrite (proj1 (sameScene_applyDeformation computeVertexNormals point 1 0.5 st)).
    + now rewrite (proj1 (sameScene_applyDeformation computeVertexNormals point 1 0.5 st)).
    + unfold createMarginLine. destruct (decide _); [assumption|]. simpl.
      apply elem_of_app. left.
      destruct (marginLine st) as [mg|] eqn:Hmg; [|assumption].
      apply sceneRemove_keeps; [assumption|]. apply (stored_uuid_ne st); auto.
      unfold storedObjects. rewrite Hmg. simpl. rewrite !elem_of_app. right. left.
    + simpl. now rewrite (proj1 (sameScene_performOcclusalAnalysis setHSL point st)).
    + simpl.
      rewrite (proj1 (sameScene_setCrossSectionValue 0
                        (createCrossSection point (Vector3.mk 0 1 0) st))).
      unfold createCrossSection. destruct (activeMeshRef st); [|assumption]. simpl.
      apply elem_of_app. left.
      destruct (planeHelperRef st) as [helper|] eqn:Hh; [|assumption].
      apply sceneRemove_keeps; [assumption|]. apply (stored_uuid_ne st); auto.
      unfold storedObjects. rewrite Hh. simpl. rewrite !elem_of_app. right. right. left.
    + destruct promptText as [noteText|]; [|assumption].
      destruct (String.eqb noteText EmptyString); [assumption|].
      simpl. apply elem_of_app. now left.
  - now rewrite (proj1 (sameScene_changeMode m st)).
  - now rewrite (proj1 (sameScene_onValueChange value st)).
  - destruct result as [| |decoded]; simpl; try assumption.
    apply elem_of_app. left. now apply clearModels_keeps.
Qed.

End Staying.

(** ** The reach of the brush *)

(** X8: in every mode the brush keeps the number of vertices, leaves
    every vertex that fails the test [distance < radius] where it is, and
    changes no position at all when no vertex passes the test. *)
Theorem deformLoop_out_of_reach (mode : Mode) (point : Vector3) (radius strength : float)
    (normal position : BufferAttribute) :
  length (deformLoop mode point radius strength normal position) = length position /\
  (forall j,
      (Vector3.distanceTo (fromBufferAttribute position j) point <? radius)%float = false ->
      deformLoop mode point radius strength normal position !! j = position !! j) /\
  ((forall j, j < length position ->
      (Vector3.distanceTo (fromBufferAttribute position j) point <? radius)%float = false) ->
   deformLoop mode point radius strength normal position = position).
Proof.
  split; [apply deformPass_length|]. split.
  - intros j Hj. now apply deformPass_lookup_out_of_range.
  - intros Hall. apply list_eq. intros j.
    destruct (decide (j < length position)) as [Hlt|Hge].
    + apply deformPass_lookup_out_of_range. now apply Hall.
    + rewrite !(proj2 (lookup_ge_None _ _)); [reflexivity|lia|].
      unfold deformLoop. rewrite deformPass_length. lia.
Qed.

(** ** Facts about binary64 arithmetic *)

Lemma binary_round_aux_sign (prec emax : Z) (s : bool) (m e : Z) (l : location) :
  match binary_round_aux prec emax s m e l with
  | S754_zero s' | S754_infinity s' | S754_finite s' _ _ => s' = s
  | S754_nan => True
  end.
Proof.
  unfold binary_round_aux.
  destruct (shr_fexp prec emax m e l) as [mrs' e'].
  destruct (shr_fexp prec emax _ e' loc_Exact) as [mrs'' e''].
  destruct (shr_m mrs''); auto. now destruct (_ <=? _)%Z.
Qed.

Lemma SFsqrt_nonneg (a : spec_float) : SFnonneg (SFsqrt prec emax a) = true.
Proof.
  destruct a as [s|s| |s m e]; simpl; try reflexivity; try (now destruct s).
  destruct s; [reflexivity|].
  destruct (SFsqrt_core_binary prec emax (Z.pos m) e) as [[mz ez] lz].
  pose proof (binary_round_aux_sign prec emax false mz ez lz) as H.
  destruct (binary_round_aux prec emax false mz ez lz); simpl; auto; now subst.
Qed.

(** A square root is below no number that is at most zero. *)
Lemma sqrt_not_below_nonpositive (a r : float) :
  (r <=? 0)%float = true -> (sqrt a <? r)%float = false.
Proof.
  rewrite leb_spec, ltb_spec, sqrt_spec.
  pose proof (SFsqrt_nonneg (Prim2SF a)) as Hn.
  unfold SF64sqrt. destruct (SFsqrt prec emax (Prim2SF a)) as [s|s| |s m e];
    change (Prim2SF 0) with (S754_zero false);
    destruct (Prim2SF r) as [sr|sr| |sr mr er]; simpl in *;
    try reflexivity; try discriminate;
    try (destruct s; discriminate || reflexivity);
    try (destruct sr; discriminate || reflexivity);
    try (destruct s, sr; discriminate || reflexivity).
Qed.

(** X9: a brush whose radius is zero or negative reaches no vertex: the
    positions stay as they are, in every mode. *)
Theorem deformLoop_nonpositive_radius (mode : Mode) (point : Vector3)
    (radius strength : float) (normal position : BufferAttribute) :
  (radius <=? 0)%float = true ->
  deformLoop mode point radius strength normal position = position.
Proof.
  intros Hr. apply list_eq. intros j.
  apply deformPass_lookup_out_of_range. unfold Vector3.distanceTo.
  now apply sqrt_not_below_nonpositive.
Qed.

Lemma sub_diag_finite (a : float) : isFiniteNumber a = true -> (a - a)%float = 0%float.
Proof.
  unfold isFiniteNumber. intros Hfin. apply Prim2SF_inj. rewrite sub_spec.
  change (Prim2SF 0) with (S754_zero false). unfold SF64sub.
  destruct (Prim2SF a) as [s|s| |s m e]; try discriminate; simpl.
  - now destruct s.
  - now rewrite Z.sub_diag.
Qed.

Lemma distanceTo_diag (v : Vector3) :
  isFiniteVector v = true -> Vector3.distanceTo v v = 0%float.
Proof.
  unfold isFiniteVector. intros H.
  apply andb_prop in H as [H Hz]. apply andb_prop in H as [Hx Hy].
  unfold Vector3.distanceTo, Vector3.distanceToSquared.
  now rewrite !sub_diag_finite.
Qed.

(** The magnitude of a rounded value does not depend on the sign it is
    given. *)
Lemma SFabs_binary_round_aux (prec emax : Z) (s s' : bool) (m e : Z) (l : location) :
  SFabs (binary_round_aux prec emax s m e l) = SFabs (binary_round_aux prec emax s' m e l).
Proof.
  unfold binary_round_aux.
  destruct (shr_fexp prec emax m e l) as [mrs' e'].
  destruct (shr_fexp prec emax _ e' loc_Exact) as [mrs'' e''].
  destruct (shr_m mrs''); auto. now destruct (_ <=? _)%Z.
Qed.

Lemma SFabs_binary_normalize_opp (prec emax : Z) (m e : Z) :
  SFabs (binary_normalize prec emax (- m) e false) =
  SFabs (binary_normalize prec emax m e false).
Proof.
  destruct m as [|p|p]; simpl; [reflexivity| |]; unfold binary_round;
    destruct (shl_align p e _) as [mz ez]; apply SFabs_binary_round_aux.
Qed.

Lemma SFabs_SFsub_comm (a b : spec_float) :
  SFabs (SFsub prec emax a b) = SFabs (SFsub prec emax b a).
Proof.
  destruct a as [sa|sa| |sa ma ea], b as [sb|sb| |sb mb eb]; simpl;
    try reflexivity; try (now destruct sa, sb).
  rewrite (Z.min_comm eb ea), <- SFabs_binary_normalize_opp. f_equal. f_equal. lia.
Qed.

Lemma SFmul_square_abs (a b : spec_float) :
  SFabs a = SFabs b -> SFmul prec emax a a = SFmul prec emax b b.
Proof.
  destruct a as [sa|sa| |sa ma ea], b as [sb|sb| |sb mb eb]; simpl;
    try discriminate; try reflexivity; try (now destruct sa, sb).
  intros [= -> ->]. now destruct sa, sb.
Qed.

Lemma sub_square_comm (a b : float) :
  ((a - b) * (a - b))%float = ((b - a) * (b - a))%float.
Proof.
  apply Prim2SF_inj. rewrite !mul_spec, !sub_spec.
  apply SFmul_square_abs, SFabs_SFsub_comm.
Qed.

Lemma distanceTo_comm (a b : Vector3) : Vector3.distanceTo a b = Vector3.distanceTo b a.
Proof.
  unfold Vector3.distanceTo, Vector3.distanceToSquared.
  now rewrite (sub_square_comm (Vector3.x a)), (sub_square_comm (Vector3.y a)),
    (sub_square_comm (Vector3.z a)).
Qed.

(** X10: a measurement from a point with finite coordinates to itself is
    carried out like any other: the distance is 0 and the toast reads
    0.00 units, whether the canvas gives a 2D context or not; the label
    reads 0.00 units when it does, and is a bare sprite, without text, at
    the origin when it does not. *)
Theorem measuring_a_point_against_itself (computeVertexNormals : BufferAttribute -> BufferAttribute)
    (setHSL : float -> float -> float -> Color) (numberToString : float -> string)
    (point : Vector3) (context : bool) (promptText : option string)
    (st : Viewer) (start : Point) :
  mode st = measure ->
  measureStartPoint st = Some start ->
  point_position start = point ->
  isFiniteVector point = true ->
  let st' := handleClick computeVertexNormals setHSL numberToString
               (Some point) context promptText st in
  measureStartPoint st' = None /\
  label <$> measureLine st' =
    Some {| uuid := S (S (nextUuid st));
            kind := DistanceLabel
                      (if context
                       then {| sprite_map := Some "0.00 units"%string;
                               sprite_position :=
                                 Vector3.multiplyScalar (Vector3.addVectors point point) 0.5;
                               sprite_scale := Vector3.mk 0.5 0.25 1 |}
                       else {| sprite_map := None;
                               sprite_position := Vector3.mk 0 0 0;
                               sprite_scale := Vector3.mk 1 1 1 |}) |} /\
  toasts st' =
    toasts st ++ [{| title := "Measurement"; description := "Distance: 0.00 units" |}].
Proof.
  intros Hmode Hsp Hpos Hfin st'. subst st'.
  unfold handleClick. rewrite Hmode. unfold recordPoint. rewrite Hsp, Hpos.
  rewrite (distanceTo_diag point Hfin). destruct context; simpl; auto.
Qed.

(** X11: the distance between two points does not depend on their order,
    bit for bit; so being a neighbour is a symmetric relation between the
    vertices of a mesh. *)
Theorem distance_is_symmetric :
  (forall a b : Vector3, Vector3.distanceTo a b = Vector3.distanceTo b a) /\
  (forall (position : BufferAttribute) (i j : nat),
      i < length position -> j < length position ->
      (j ∈ findNeighborVertices i position <-> i ∈ findNeighborVertices j position)).
Proof.
  split; [apply distanceTo_comm|].
  intros position i j Hi Hj. rewrite !elem_of_findNeighborVertices.
  rewrite (distanceTo_comm (fromBufferAttribute position i)).
  split; intros (_ & Hne & Hd); auto.
Qed.

(** ** The file input of the page *)

Lemma substring_all (s : string) : String.substring 0 (String.length s) s = s.
Proof. induction s as [|c s IH]; simpl; [reflexivity|now rewrite IH]. Qed.

Lemma substring_append_r (a b : string) :
  String.substring (String.length a) (String.length b) (a ++ b)%string = b.
Proof. induction a as [|c a IH]; simpl; [apply substring_all|exact IH]. Qed.

Lemma length_append (a b : string) :
  String.length (a ++ b)%string = String.length a + String.length b.
Proof. induction a as [|c a IH]; simpl; [reflexivity|now rewrite IH]. Qed.

Lemma substring_split (s : string) :
  forall n, n <= String.length s ->
    s = (String.substring 0 n s ++ String.substring n (String.length s - n) s)%string.
Proof.
  induction s as [|c s IH]; intros [|n] Hn; simpl in *; try lia; try reflexivity.
  - now rewrite substring_all.
  - f_equal. apply IH. lia.
Qed.

Lemma endsWith_spec (s searchString : string) :
  endsWith s searchString = true <-> exists base, s = (base ++ searchString)%string.
Proof.
  unfold endsWith. split.
  - destruct (Nat.ltb_spec (String.length s) (String.length searchString)) as [Hlt|Hge];
      [discriminate|].
    intros Heq. apply String.eqb_eq in Heq.
    exists (String.substring 0 (String.length s - String.length searchString) s).
    pose proof (substring_split s (String.length s - String.length searchString)) as Hsplit.
    replace (String.length s - (String.length s - String.length searchString))
      with (String.length searchString) in Hsplit by lia.
    rewrite Heq in Hsplit. apply Hsplit. lia.
  - intros [base ->]. rewrite length_append.
    destruct (Nat.ltb_spec (String.length base + String.length searchString)
                (String.length searchString)) as [Hlt|Hge]; [lia|].
    replace (String.length base + String.length searchString - String.length searchString)
      with (String.length base) by lia.
    rewrite substring_append_r. apply String.eqb_refl.
Qed.

(** X12: the page takes the first selected file when its name is some
    text followed by [.stl], in lower case, and announces it; any other
    selection, an empty one included, leaves the file it had and emits
    the invalid-format toast. *)
Theorem handleFileUpload_accepts_stl_names (files : list File) (st : Index) :
  let st' := handleFileUpload files st in
  activeMode st' = activeMode st /\
  match files with
  | file :: _ =>
      ((exists base, file_name file = (base ++ ".stl")%string) ->
       stlFile st' = Some file /\
       index_toasts st' =
         index_toasts st ++
         [{| title := "File uploaded successfully";
             description := ("Loaded: " ++ file_name file)%string |}]) /\
      ((forall base, file_name file <> (base ++ ".stl")%string) ->
       stlFile st' = stlFile st /\
       index_toasts st' =
         index_toasts st ++
         [{| title := "Invalid file format"; description := "Please upload an STL file" |}])
  | [] =>
      stlFile st' = stlFile st /\
      index_toasts st' =
        index_toasts st ++
        [{| title := "Invalid file format"; description := "Please upload an STL file" |}]
  end.
Proof.
  intros st'. subst st'. unfold handleFileUpload.
  destruct files as [|file rest]; [now repeat split|].
  destruct (endsWith (file_name file) ".stl") eqn:Hends; simpl.
  - split; [reflexivity|]. split; [auto|].
    intros Hnot. apply endsWith_spec in Hends as [base Hbase]. now destruct (Hnot base).
  - split; [reflexivity|]. split; [|auto].
    intros Hbase. apply endsWith_spec in Hbase. congruence.
Qed.

(** An upper-case extension is refused. *)
Example handleFileUpload_upper_case :
  stlFile (handleFileUpload [{| file_name := "arch.STL" |}]
             {| activeMode := view; stlFile := None; index_toasts := [] |}) = None /\
  stlFile (handleFileUpload [{| file_name := "arch.stl" |}]
             {| activeMode := view; stlFile := None; index_toasts := [] |})
  = Some {| file_name := "arch.stl" |}.
Proof. split; reflexivity. Qed.

(** ** What the tools do to the mesh *)

Section MeshTools.

Variable computeVertexNormals : BufferAttribute -> BufferAttribute.
Variable setHSL : float -> float -> float -> Color.
Variable boundingBoxCenter : BufferAttribute -> Vector3.
Variable numberToString : float -> string.

(** X13: an occlusal analysis overwrites the colours of the previous one:
    analysing at one point and then at another gives the state the second
    analysis alone gives, with one colour for each vertex. *)
Theorem performOcclusalAnalysis_overwrites (point point' : Vector3) (st : Viewer) :
  performOcclusalAnalysis setHSL point' (performOcclusalAnalysis setHSL point st) =
  performOcclusalAnalysis setHSL point' st /\
  (forall g', activeGeometry (performOcclusalAnalysis setHSL point' st) = Some g' ->
     exists colors, attributes_color g' = Some colors /\
                    length colors = length (attributes_position g')).
Proof.
  split.
  - unfold performOcclusalAnalysis.
    destruct (activeMeshRef st) as [mesh|] eqn:E; simpl; [reflexivity|now rewrite E].
  - unfold activeGeometry, performOcclusalAnalysis.
    destruct (activeMeshRef st) as [mesh|] eqn:E; simpl; [|now rewrite E].
    intros g' [= <-]. simpl. eexists. split; [reflexivity|]. apply length_map.
Qed.

(** X14: nothing but a successful load changes which mesh is active or
    how many vertices it has: the brushes move vertices, and no tool adds
    or removes one. *)
Theorem only_a_load_changes_the_vertex_count (st : Viewer) (e : Event) :
  (forall decoded, e <> FileLoaded (Parsed decoded)) ->
  let st' := step computeVertexNormals setHSL boundingBoxCenter numberToString st e in
  mesh_uuid <$> activeMeshRef st' = mesh_uuid <$> activeMeshRef st /\
  (length ∘ attributes_position) <$> activeGeometry st' =
  (length ∘ attributes_position) <$> activeGeometry st.
Proof.
  intros Hload st'. subst st'. unfold activeGeometry.
  destruct e as [hit context promptText|m|value|result]; simpl.
  - unfold handleClick, applyDeformation, performOcclusalAnalysis, createMarginLine,
      recordPoint, setCrossSectionValue, createCrossSection, crossSectionEffect.
    destruct hit as [point|]; [|now split].
    destruct (mode st) eqn:Hmode; destruct_matches;
      repeat match goal with
             | H : activeMeshRef _ = _ |- _ => rewrite H
             end; simpl; unfold deformLoop; rewrite ?deformPass_length; split; reflexivity.
  - unfold changeMode, crossSectionEffect. destruct_matches; split; reflexivity.
  - unfold onValueChange, setCrossSectionValue, crossSectionEffect.
    destruct_matches; split; reflexivity.
  - destruct result as [| |decoded]; simpl; [now split|now split|].
    now destruct (Hload decoded).
Qed.

(** X15: while a measurement is pending its marker is in the scene, at
    the stored point, and is an object no other reference of the state
    points to. *)
Theorem pending_measurement_marker (st : Viewer) (start : Point) :
  reachable computeVertexNormals setHSL boundingBoxCenter numberToString st ->
  measureStartPoint st = Some start ->
  marker start ∈ children st /\
  kind (marker start) = Marker (point_position start) /\
  (forall mg, marginLine st = Some mg -> margin_line mg <> marker start) /\
  planeHelperRef st <> Some (marker start).
Proof.
  intros Hreach Hsp.
  destruct (reachable_invariants _ _ _ _ st Hreach) as (HInv & HC & _).
  destruct (stored_marker st start HInv HC Hsp) as [Hin Hk].
  split; [assumption|]. split; [assumption|]. split.
  - intros mg Hmg Heq. destruct (stored_margin_line st mg HInv HC Hmg) as [_ Hk'].
    rewrite Heq in Hk'. congruence.
  - intros Hh. destruct (stored_helper st _ HInv HC Hh) as [_ Hk'].
    unfold isPlaneHelper in Hk'. rewrite Hk in Hk'. discriminate.
Qed.

End MeshTools.

(** ** The properties above on example sessions *)

Lemma margin_line_follows_points_witness :
  let p := Vector3.mk 0 0 0 in
  let q := Vector3.mk 1 0 0 in
  let st := session [ModeChange margin; clickAt p; clickAt q] in
  marginLinesIn (children st) = [ {| uuid := 3; kind := MarginLineObject [p; q] |} ].
Proof.
  intros p q st.
  exact (proj2 (proj2 (proj2
           (margin_line_follows_points computeVertexNormals_nonIndexed hslToRgb
              (fun _ => Vector3.zero) exampleNumberToString st
              (session_reachable [ModeChange margin; clickAt p; clickAt q]))))).
Defined.

Lemma one_cross_section_witness :
  let st := session [ModeChange section; clickAt (Vector3.mk 0 1 0);
                     clickAt (Vector3.mk 1 0 0)] in
  planeHelpersIn (children st) = [ {| uuid := 4; kind := PlaneHelper 1 |} ].
Proof.
  intros st.
  pose proof (one_cross_section computeVertexNormals_nonIndexed hslToRgb
                (fun _ => Vector3.zero) exampleNumberToString st
                (session_reachable [ModeChange section; clickAt (Vector3.mk 0 1 0);
                                    clickAt (Vector3.mk 1 0 0)])) as H.
  vm_compute in H. vm_compute. exact (proj1 (proj2 H)).
Defined.

Lemma one_model_witness :
  let st := session [FileLoaded (Parsed flatTriangle); FileLoaded ParseError;
                     FileLoaded (Parsed flatTriangle)] in
  modelsIn (children st) = [ {| uuid := 4; kind := Model |} ].
Proof.
  intros st.
  exact (one_model computeVertexNormals_nonIndexed hslToRgb
           (fun _ => Vector3.zero) exampleNumberToString st
           (session_reachable [FileLoaded (Parsed flatTriangle); FileLoaded ParseError;
                               FileLoaded (Parsed flatTriangle)])).
Defined.

Lemma notes_are_shown_witness :
  let p := Vector3.mk 0 0 0 in
  let st := session [ModeChange note; Click (Some p) true (Some "check margin"%string);
                     Click (Some p) true None] in
  noteLabelsIn (children st) =
  [ {| uuid := 3;
       kind := NoteLabel {| sprite_map := Some "check margin"%string;
                            sprite_position := p;
                            sprite_scale := Vector3.mk 1 0.5 1 |} |} ].
Proof.
  intros p st.
  exact (proj1
           (notes_are_shown computeVertexNormals_nonIndexed hslToRgb
              (fun _ => Vector3.zero) exampleNumberToString st
              (session_reachable [ModeChange note;
                                  Click (Some p) true (Some "check margin"%string);
                                  Click (Some p) true None]))).
Defined.

(** The second section of a session is made after the slider was moved
    to 2.5: its plane gets the constant -0, not -1. *)
Lemma section_click_constant_witness :
  let st := session [ModeChange section; clickAt (Vector3.mk 0 1 0); SliderChange 2.5] in
  let st1 := exampleStep st (clickAt (Vector3.mk 0 1 0)) in
  planes st1 !! 1 = Some {| plane_normal := Vector3.mk 0 1 0; constant := (- 0)%float |}.
Proof.
  intros st st1.
  exact (proj2 (proj2
           (section_click_constant computeVertexNormals_nonIndexed hslToRgb
              exampleNumberToString (Vector3.mk 0 1 0) true None st _ eq_refl eq_refl))).
Defined.

Lemma unreferenced_objects_stay_witness :
  let p := Vector3.mk 0 0 0 in
  let st := session [ModeChange pick; clickAt p] in
  {| uuid := 3; kind := Marker p |} ∈
    children (exampleStep st (FileLoaded (Parsed flatTriangle))).
Proof.
  intros p st.
  apply (unreferenced_objects_stay computeVertexNormals_nonIndexed hslToRgb
           (fun _ => Vector3.zero) exampleNumberToString st
           {| uuid := 3; kind := Marker p |} (FileLoaded (Parsed flatTriangle))
           (session_reachable [ModeChange pick; clickAt p])).
  - simpl. do 3 right. left.
  - reflexivity.
  - simpl. intros H. inversion H.
  - simpl. discriminate.
Defined.

Lemma deformLoop_nonpositive_radius_witness :
  deformLoop push Vector3.zero (-1) 0.5 (attributes_normal flatTriangle)
    (attributes_position flatTriangle) = attributes_position flatTriangle.
Proof.
  exact (deformLoop_nonpositive_radius push Vector3.zero (-1) 0.5
           (attributes_normal flatTriangle) (attributes_position flatTriangle) eq_refl).
Defined.

Lemma measuring_a_point_against_itself_witness :
  let p := Vector3.mk 1 2 3 in
  let st := session [ModeChange measure; clickAt p] in
  let st' := exampleStep st (clickAt p) in
  let st'' := exampleStep st (Click (Some p) false None) in
  toasts st' = [{| title := "Measurement"; description := "Distance: 0.00 units" |}] /\
  label <$> measureLine st' =
    Some {| uuid := 6;
            kind := DistanceLabel
                      {| sprite_map := Some "0.00 units"%string;
                         sprite_position := p;
                         sprite_scale := Vector3.mk 0.5 0.25 1 |} |} /\
  toasts st'' = [{| title := "Measurement"; description := "Distance: 0.00 units" |}] /\
  label <$> measureLine st'' =
    Some {| uuid := 6;
            kind := DistanceLabel
                      {| sprite_map := None;
                         sprite_position := Vector3.mk 0 0 0;
                         sprite_scale := Vector3.mk 1 1 1 |} |}.
Proof.
  intros p st st' st''.
  destruct (measuring_a_point_against_itself computeVertexNormals_nonIndexed hslToRgb
              exampleNumberToString p true None st _ eq_refl eq_refl eq_refl eq_refl)
    as (_ & Hlabel & Htoasts).
  destruct (measuring_a_point_against_itself computeVertexNormals_nonIndexed hslToRgb
              exampleNumberToString p false None st _ eq_refl eq_refl eq_refl eq_refl)
    as (_ & Hlabel' & Htoasts').
  split; [exact Htoasts|]. split; [exact Hlabel|]. split; [exact Htoasts'|exact Hlabel'].
Defined.

Lemma only_a_load_changes_the_vertex_count_witness :
  let st := session [ModeChange push] in
  let st' := exampleStep st (clickAt Vector3.zero) in
  (length ∘ attributes_position) <$> activeGeometry st' = Some 3.
Proof.
  intros st st'.
  exact (proj2
           (only_a_load_changes_the_vertex_count computeVertexNormals_nonIndexed hslToRgb
              (fun _ => Vector3.zero) exampleNumberToString st (clickAt Vector3.zero)
              ltac:(discriminate))).
Defined.

Lemma pending_measurement_marker_witness :
  let p := Vector3.mk 1 2 3 in
  let st := session [ModeChange measure; clickAt p] in
  {| uuid := 3; kind := Marker p |} ∈ children st.
Proof.
  intros p st.
  exact (proj1
           (pending_measurement_marker computeVertexNormals_nonIndexed hslToRgb
              (fun _ => Vector3.zero) exampleNumberToString st _
              (session_reachable [ModeChange measure; clickAt p]) eq_refl)).
Defined.
